(** * Feature store service and progress notifier

    A shallow embedding of [src/api/routes.py] (the FastAPI handlers of the
    feature store) and of [src/progress.py] (the webhook progress notifier),
    together with the properties the specification states about them.

    Python [int] is [Z]; [str] is [string] (one character per code point);
    a table keyed by its primary key is a [gmap Z _]; [float] is an IEEE-754
    binary64 value, represented by [spec_float] with precision 53 and
    exponent bound 1024; a handler is a computation in a state-and-exception
    monad over the store, the notifier one over the file system, the
    console and the network. *)

From Stdlib Require Import ZArith SpecFloat Lia.
From stdpp Require Import base option list gmap strings sorting.

Local Open Scope Z_scope.

(* ===================================================================== *)
(** * Exceptions and the state-and-exception monad *)
(* ===================================================================== *)

(** The exceptions that the modelled code raises or catches. *)
Inductive exn : Type :=
  | ZeroDivisionError
  | HTTPException (status_code : Z) (detail : string)
  | RequestValidationError          (* FastAPI's 422 on a rejected request *)
  | URLError                        (* urllib: the peer cannot be reached *)
  | JSONDecodeError                 (* json.loads on text that is not JSON *)
  | AttributeError                  (* .get on a value that is not a dict *)
  | TypeError                       (* set(...) on a value that is not iterable *)
  | KeyError.                       (* d[k] on a dict without the key k *)

Inductive outcome (A : Type) : Type :=
  | Return (a : A)
  | Raise (e : exn).
Arguments Return {A} a.
Arguments Raise {A} e.

(** A computation over a state [S] that returns or raises. *)
Definition M (S A : Type) : Type := S -> outcome A * S.

Definition ret {S A} (a : A) : M S A := fun s => (Return a, s).
Definition raise {S A} (e : exn) : M S A := fun s => (Raise e, s).
Definition bind {S A B} (m : M S A) (k : A -> M S B) : M S B :=
  fun s => match m s with
           | (Return a, s') => k a s'
           | (Raise e, s') => (Raise e, s')
           end.
(** [try: m except: h]: the state changes made by [m] before it raised are
    kept, as in Python. *)
Definition try_except {S A} (m : M S A) (h : exn -> M S A) : M S A :=
  fun s => match m s with
           | (Return a, s') => (Return a, s')
           | (Raise e, s') => h e s'
           end.
Definition get {S} : M S S := fun s => (Return s, s).
Definition put {S} (s : S) : M S unit := fun _ => (Return tt, s).
Definition lift {S A} (o : outcome A) : M S A := fun s => (o, s).

Declare Scope py_scope.
Delimit Scope py_scope with py.
Notation "x <~ m ;; k" := (bind m (fun x => k))
  (at level 100, m at next level, right associativity) : py_scope.
Notation "m ;;; k" := (bind m (fun _ => k))
  (at level 100, right associativity) : py_scope.

(* ===================================================================== *)
(** * Python floats: true division, multiplication, [round] *)
(* ===================================================================== *)

Module PyFloat.

Abbreviation float := spec_float.
Definition prec : Z := 53.
Definition emax : Z := 1024.

(** [float(n)] for an integer below 2^53 in magnitude (exact there). *)
Definition of_int (n : Z) : float := binary_normalize prec emax n 0 false.

Definition zero : float := S754_zero false.            (* 0.0 *)

Definition mul (x y : float) : float := SFmul prec emax x y.

(** [a / b] on two Python ints. The quotient of the two converted
    operands, rounded to nearest-even: CPython's result whenever both
    operands are below 2^53 in magnitude, as row counts are. *)
Definition truediv (a b : Z) : outcome float :=
  if b =? 0 then Raise ZeroDivisionError
  else Return (SFdiv prec emax (of_int a) (of_int b)).

(** Round-half-even of [m * 2^e] to an integer ([m], result >= 0). *)
Definition round_half_even (m e : Z) : Z :=
  if 0 <=? e then m * 2 ^ e
  else
    let d := 2 ^ (- e) in
    let q := m / d in
    let r := m mod d in
    match 2 * r ?= d with
    | Lt => q
    | Gt => q + 1
    | Eq => if Z.even q then q else q + 1
    end.

(** [round(x, ndigits)] for [ndigits >= 0]: CPython rounds the exact
    binary value of [x] to [ndigits] decimals, ties to even, and returns
    the double nearest to that decimal (here: the correctly rounded
    quotient of two exactly representable integers). *)
Definition round (x : float) (ndigits : nat) : float :=
  match x with
  | S754_finite s m e =>
      let p := 10 ^ Z.of_nat ndigits in
      let n := round_half_even (Z.pos m * p) e in
      SFdiv prec emax
        (binary_normalize prec emax (if s then - n else n) 0 s)
        (of_int p)
  | _ => x
  end.

End PyFloat.

(** A Python number that is either an [int] or a [float]. *)
Inductive number : Type :=
  | Int (n : Z)
  | Float (x : PyFloat.float).

(* ===================================================================== *)
(** * Data model ([src/api/routes.py], lines 18-75) *)
(* ===================================================================== *)

(** Modelled from the spec: the ORM class [Feature] of [api/database.py],
    which is not among the sources. Its columns are those of section 3 of
    the specification and of [FeatureResponse]; the primary key [id] is the
    key of the table and is not repeated in the row. *)
Module Feature.
Record t : Type := {
  priority : Z;
  category : string;
  name : string;
  description : string;
  steps : list string;
  passes : bool }.
End Feature.
Abbreviation Feature := Feature.t.

Module FeatureCreate.
Record t : Type := {
  category : string;
  name : string;
  description : string;
  steps : list string }.
End FeatureCreate.
Abbreviation FeatureCreate := FeatureCreate.t.

Module FeatureBulkCreate.
Record t : Type := { features : list FeatureCreate }.
End FeatureBulkCreate.
Abbreviation FeatureBulkCreate := FeatureBulkCreate.t.

Module FeatureUpdate.
Record t : Type := { passes : bool }.
End FeatureUpdate.
Abbreviation FeatureUpdate := FeatureUpdate.t.

Module FeatureResponse.
Record t : Type := {
  id : Z;
  priority : Z;
  category : string;
  name : string;
  description : string;
  steps : list string;
  passes : bool }.
End FeatureResponse.
Abbreviation FeatureResponse := FeatureResponse.t.

Module FeatureListResponse.
Record t : Type := {
  features : list FeatureResponse;
  total : Z;
  limit : Z;
  offset : Z }.
End FeatureListResponse.
Abbreviation FeatureListResponse := FeatureListResponse.t.

Module StatsResponse.
Record t : Type := {
  passing : Z;
  total : Z;
  percentage : PyFloat.float }.
End StatsResponse.
Abbreviation StatsResponse := StatsResponse.t.

Module BulkCreateResponse.
Record t : Type := { created : Z }.
End BulkCreateResponse.
Abbreviation BulkCreateResponse := BulkCreateResponse.t.

(** Modelled from the spec: [Feature.to_dict] of [api/database.py]; the
    keys are the fields [FeatureResponse] validates. *)
Definition to_dict (row : Z * Feature) : FeatureResponse :=
  {| FeatureResponse.id := row.1;
     FeatureResponse.priority := Feature.priority row.2;
     FeatureResponse.category := Feature.category row.2;
     FeatureResponse.name := Feature.name row.2;
     FeatureResponse.description := Feature.description row.2;
     FeatureResponse.steps := Feature.steps row.2;
     FeatureResponse.passes := Feature.passes row.2 |}.

(* ===================================================================== *)
(** * Request validation (pydantic [Field] and FastAPI [Query] bounds) *)
(* ===================================================================== *)

(** A JSON request body for [FeatureCreate] whose four declared keys are
    present and hold values of the declared types, with any further keys,
    which pydantic ignores. The bodies that lack a declared key or hold a
    value of another type under it are [FeatureCreateJson] below. *)
Inductive json_scalar : Type :=
  | JNull
  | JBool (b : bool)
  | JInt (n : Z)
  | JStr (s : string).

Module FeatureCreateBody.
Record t : Type := {
  category : string;
  name : string;
  description : string;
  steps : list string;
  extra : list (string * json_scalar) }.
End FeatureCreateBody.
Abbreviation FeatureCreateBody := FeatureCreateBody.t.

Definition str_len (s : string) : Z := Z.of_nat (String.length s).
Definition list_len {A} (l : list A) : Z := Z.of_nat (length l).

(** [FeatureCreate] (lines 20-25):
    category: min_length=1, max_length=100; name: min_length=1,
    max_length=255; description: min_length=1; steps: min_items=1. *)
Definition FeatureCreate_constraints (b : FeatureCreateBody) : bool :=
  (1 <=? str_len (FeatureCreateBody.category b))
  && (str_len (FeatureCreateBody.category b) <=? 100)
  && (1 <=? str_len (FeatureCreateBody.name b))
  && (str_len (FeatureCreateBody.name b) <=? 255)
  && (1 <=? str_len (FeatureCreateBody.description b))
  && (1 <=? list_len (FeatureCreateBody.steps b)).

(** The bounds are checked on a body whose declared keys are present and
    well typed; [typed_FeatureCreate] below has the checks that come with
    them on a body as it arrives. *)
Definition parse_FeatureCreate (b : FeatureCreateBody) : outcome FeatureCreate :=
  if FeatureCreate_constraints b then
    Return {| FeatureCreate.category := FeatureCreateBody.category b;
              FeatureCreate.name := FeatureCreateBody.name b;
              FeatureCreate.description := FeatureCreateBody.description b;
              FeatureCreate.steps := FeatureCreateBody.steps b |}
  else Raise RequestValidationError.

Fixpoint parse_items (bs : list FeatureCreateBody) : outcome (list FeatureCreate) :=
  match bs with
  | [] => Return []
  | b :: bs' =>
      match parse_FeatureCreate b with
      | Raise e => Raise e
      | Return f =>
          match parse_items bs' with
          | Raise e => Raise e
          | Return fs => Return (f :: fs)
          end
      end
  end.

(** [FeatureBulkCreate] (lines 28-30): features: min_items=1. *)
Definition parse_FeatureBulkCreate (bs : list FeatureCreateBody)
  : outcome FeatureBulkCreate :=
  if 1 <=? list_len bs then
    match parse_items bs with
    | Return fs => Return {| FeatureBulkCreate.features := fs |}
    | Raise e => Raise e
    end
  else Raise RequestValidationError.

(** A request body as it arrives. Under a declared key pydantic finds a
    value it takes for the declared type, a value it does not take for it,
    or nothing, and [Field(...)] makes every key required; the body, and an
    item of a list of bodies, may itself fail to be a JSON object. *)
Inductive json_field (A : Type) : Type :=
  | Absent
  | Mistyped
  | Typed (v : A).
Arguments Absent {A}.
Arguments Mistyped {A}.
Arguments Typed {A} v.

Module FeatureCreateJson.
Record t : Type := {
  category : json_field string;
  name : json_field string;
  description : json_field string;
  steps : json_field (list string);
  extra : list (string * json_scalar) }.
End FeatureCreateJson.
Abbreviation FeatureCreateJson := FeatureCreateJson.t.

Module FeatureBulkCreateJson.
Record t : Type := {
  features : json_field (list (json_field FeatureCreateJson)) }.
End FeatureBulkCreateJson.
Abbreviation FeatureBulkCreateJson := FeatureBulkCreateJson.t.

(** The required-key and type checks of [FeatureCreate] (lines 20-25):
    every declared key is there and holds a value of its type, or the
    request is answered with the validation error. *)
Definition typed_FeatureCreate (j : json_field FeatureCreateJson)
  : outcome FeatureCreateBody :=
  match j with
  | Typed o =>
      match FeatureCreateJson.category o, FeatureCreateJson.name o,
            FeatureCreateJson.description o, FeatureCreateJson.steps o with
      | Typed category, Typed name, Typed description, Typed steps =>
          Return {| FeatureCreateBody.category := category;
                    FeatureCreateBody.name := name;
                    FeatureCreateBody.description := description;
                    FeatureCreateBody.steps := steps;
                    FeatureCreateBody.extra := FeatureCreateJson.extra o |}
      | _, _, _, _ => Raise RequestValidationError
      end
  | Absent | Mistyped => Raise RequestValidationError
  end.

Fixpoint typed_items (js : list (json_field FeatureCreateJson))
  : outcome (list FeatureCreateBody) :=
  match js with
  | [] => Return []
  | j :: js' =>
      match typed_FeatureCreate j with
      | Raise e => Raise e
      | Return b =>
          match typed_items js' with
          | Raise e => Raise e
          | Return bs => Return (b :: bs)
          end
      end
  end.

(** The same checks of [FeatureBulkCreate] (lines 28-30). *)
Definition typed_FeatureBulkCreate (j : json_field FeatureBulkCreateJson)
  : outcome (list FeatureCreateBody) :=
  match j with
  | Typed o =>
      match FeatureBulkCreateJson.features o with
      | Typed js => typed_items js
      | Absent | Mistyped => Raise RequestValidationError
      end
  | Absent | Mistyped => Raise RequestValidationError
  end.

(** [limit: int = Query(50, ge=1, le=1000)], [offset: int = Query(0, ge=0)]. *)
Definition list_query_constraints (limit offset : Z) : bool :=
  (1 <=? limit) && (limit <=? 1000) && (0 <=? offset).

(* ===================================================================== *)
(** * The record store *)
(* ===================================================================== *)

(** Modelled from the spec: the table behind [get_db] ([api/database.py] is
    not among the sources). A durable table keyed by [id]; insert assigns
    the id, "monotonically increasing, never reused" (section 3), which is
    the counter [next_id]. *)
Record Database : Type := {
  table : gmap Z Feature;
  next_id : Z }.

Definition empty_db : Database := {| table := ∅; next_id := 1 |}.

(** Every stored id was handed out by the counter. *)
Definition wf_db (db : Database) : Prop :=
  forall i, is_Some (table db !! i) -> i < next_id db.

(** [db.query(Feature)]: the rows, each with its primary key. *)
Definition query (db : Database) : list (Z * Feature) := map_to_list (table db).

(** [db.add(row); db.commit()]: insert under a fresh id. *)
Definition add (row : Feature) : M Database Z :=
  fun db => (Return (next_id db),
             {| table := <[next_id db := row]> (table db);
                next_id := next_id db + 1 |}).

(** [.order_by(Feature.priority.asc(), Feature.id.asc())] *)
Definition by_priority_id (a b : Z * Feature) : Prop :=
  Feature.priority a.2 < Feature.priority b.2
  \/ (Feature.priority a.2 = Feature.priority b.2 /\ a.1 <= b.1).

#[global] Instance by_priority_id_dec : RelDecision by_priority_id.
Proof. intros a b. unfold by_priority_id. apply _. Defined.

Definition order_by_priority_id (rows : list (Z * Feature)) : list (Z * Feature) :=
  merge_sort by_priority_id rows.

(** [.order_by(Feature.priority.desc())] on the priority column. *)
Definition desc (a b : Z) : Prop := b <= a.

#[global] Instance desc_dec : RelDecision desc.
Proof. intros a b. unfold desc. apply _. Defined.

Definition order_by_desc (ps : list Z) : list Z := merge_sort desc ps.

(** [.first()] *)
Definition first {A} (rows : list A) : option A := head rows.

(** [.count()] *)
Definition count {A} (rows : list A) : Z := Z.of_nat (length rows).

(** [.filter(Feature.passes == v)], [.filter(Feature.category == c)] *)
Definition filter_passes (v : bool) (rows : list (Z * Feature)) : list (Z * Feature) :=
  filter (fun r => Feature.passes r.2 = v) rows.
Definition filter_category (c : string) (rows : list (Z * Feature)) : list (Z * Feature) :=
  filter (fun r => Feature.category r.2 = c) rows.

(** [.offset(offset).limit(limit)] *)
Definition offset_limit {A} (offset limit : Z) (rows : list A) : list A :=
  take (Z.to_nat limit) (drop (Z.to_nat offset) rows).

(* ===================================================================== *)
(** * The handlers ([src/api/routes.py], lines 104-274) *)
(* ===================================================================== *)

Local Open Scope py_scope.

(** [list_features] (lines 105-144). *)
Definition list_features (limit offset : Z) (passes : option bool)
    (category : option string) : M Database FeatureListResponse :=
  db <~ get ;;
  let query0 := query db in
  let query1 := match passes with
                | Some v => filter_passes v query0
                | None => query0
                end in
  let query2 := match category with
                | Some c => filter_category c query1
                | None => query1
                end in
  let total := count query2 in
  let features := offset_limit offset limit (order_by_priority_id query2) in
  ret {| FeatureListResponse.features := to_dict <$> features;
         FeatureListResponse.total := total;
         FeatureListResponse.limit := limit;
         FeatureListResponse.offset := offset |}.

(** [GET /features]: the query bounds are checked before the handler runs. *)
Definition GET_features (limit offset : Z) (passes : option bool)
    (category : option string) : M Database FeatureListResponse :=
  if list_query_constraints limit offset
  then list_features limit offset passes category
  else raise RequestValidationError.

(** [get_next_feature] (lines 147-167). *)
Definition get_next_feature : M Database FeatureResponse :=
  db <~ get ;;
  let feature := first (order_by_priority_id (filter_passes false (query db))) in
  match feature with
  | None => raise (HTTPException 404 "All features are passing! No more work to do.")
  | Some f => ret (to_dict f)
  end.

(** [get_stats] (lines 170-180). *)
Definition get_stats : M Database StatsResponse :=
  db <~ get ;;
  let total := count (query db) in
  let passing := count (filter_passes true (query db)) in
  percentage <~ (if 0 <? total
                 then q <~ lift (PyFloat.truediv passing total) ;;
                      ret (PyFloat.round (PyFloat.mul q (PyFloat.of_int 100)) 1)
                 else ret PyFloat.zero) ;;
  ret {| StatsResponse.passing := passing;
         StatsResponse.total := total;
         StatsResponse.percentage := percentage |}.

(** [get_feature] (lines 183-190). *)
Definition get_feature (feature_id : Z) : M Database FeatureResponse :=
  db <~ get ;;
  match table db !! feature_id with
  | None => raise (HTTPException 404 "Feature not found")
  | Some f => ret (to_dict (feature_id, f))
  end.

(** The priority query shared by both create handlers (lines 196-197 and
    223-224): [(max_priority[0] + 1) if max_priority else 1]. *)
Definition next_priority (db : Database) : Z :=
  let max_priority := first (order_by_desc ((fun r => Feature.priority r.2) <$> query db)) in
  match max_priority with
  | Some p => p + 1
  | None => 1
  end.

Definition new_feature (priority : Z) (feature : FeatureCreate) : Feature :=
  {| Feature.priority := priority;
     Feature.category := FeatureCreate.category feature;
     Feature.name := FeatureCreate.name feature;
     Feature.description := FeatureCreate.description feature;
     Feature.steps := FeatureCreate.steps feature;
     Feature.passes := false |}.

(** [db.refresh(row)]: read the row back. *)
Definition refresh (feature_id : Z) (row : Feature) : M Database Feature :=
  db <~ get ;;
  ret (default row (table db !! feature_id)).

(** [create_feature] (lines 193-212). *)
Definition create_feature (feature : FeatureCreate) : M Database FeatureResponse :=
  db <~ get ;;
  let next_priority := next_priority db in
  let db_feature := new_feature next_priority feature in
  feature_id <~ add db_feature ;;
  db_feature <~ refresh feature_id db_feature ;;
  ret (to_dict (feature_id, db_feature)).

(** The loop of [create_features_bulk] (lines 226-237):
    [for i, feature in enumerate(data.features)]. *)
Fixpoint bulk_loop (start_priority i : Z) (features : list FeatureCreate)
    (created_count : Z) : M Database Z :=
  match features with
  | [] => ret created_count
  | feature :: rest =>
      let db_feature := new_feature (start_priority + i) feature in
      add db_feature ;;;
      bulk_loop start_priority (i + 1) rest (created_count + 1)
  end.

(** [create_features_bulk] (lines 215-241). *)
Definition create_features_bulk (data : FeatureBulkCreate)
  : M Database BulkCreateResponse :=
  db <~ get ;;
  let start_priority := next_priority db in
  created_count <~ bulk_loop start_priority 0 (FeatureBulkCreate.features data) 0 ;;
  ret {| BulkCreateResponse.created := created_count |}.

(** [POST /features], [POST /features/bulk]: the body is validated into
    the schema before the handler runs. *)
Definition POST_features (body : FeatureCreateBody) : M Database FeatureResponse :=
  feature <~ lift (parse_FeatureCreate body) ;;
  create_feature feature.

Definition POST_features_bulk (body : list FeatureCreateBody)
  : M Database BulkCreateResponse :=
  data <~ lift (parse_FeatureBulkCreate body) ;;
  create_features_bulk data.

(** The two routes on a request body as it arrives: the required-key and
    type checks come first, with the bounds, and the handler runs on a
    body that passed them. *)
Definition request_POST_features (j : json_field FeatureCreateJson)
  : M Database FeatureResponse :=
  body <~ lift (typed_FeatureCreate j) ;;
  POST_features body.

Definition request_POST_features_bulk (j : json_field FeatureBulkCreateJson)
  : M Database BulkCreateResponse :=
  body <~ lift (typed_FeatureBulkCreate j) ;;
  POST_features_bulk body.

Definition set_passes (v : bool) (f : Feature) : Feature :=
  {| Feature.priority := Feature.priority f;
     Feature.category := Feature.category f;
     Feature.name := Feature.name f;
     Feature.description := Feature.description f;
     Feature.steps := Feature.steps f;
     Feature.passes := v |}.

(** [update_feature] (lines 244-261). *)
Definition update_feature (feature_id : Z) (update : FeatureUpdate)
  : M Database FeatureResponse :=
  db <~ get ;;
  match table db !! feature_id with
  | None => raise (HTTPException 404 "Feature not found")
  | Some feature =>
      let feature := set_passes (FeatureUpdate.passes update) feature in
      put {| table := <[feature_id := feature]> (table db);
             next_id := next_id db |} ;;;
      feature <~ refresh feature_id feature ;;
      ret (to_dict (feature_id, feature))
  end.

(** [delete_feature] (lines 264-274). *)
Definition delete_feature (feature_id : Z) : M Database unit :=
  db <~ get ;;
  match table db !! feature_id with
  | None => raise (HTTPException 404 "Feature not found")
  | Some _ =>
      put {| table := delete feature_id (table db); next_id := next_id db |}
  end.

(* ===================================================================== *)
(** * The progress notifier ([src/progress.py]) *)
(* ===================================================================== *)

(** What a GET on the Feature API answers, by endpoint. *)
Inductive endpoint : Type :=
  | features_stats                    (* "/features/stats" *)
  | features_passing_1000.            (* "/features?passes=true&limit=1000" *)

Inductive api_json : Type :=
  | StatsJson (stats : StatsResponse)
  | ListJson (data : FeatureListResponse).

(** The text of [.progress_cache]. The notifier is its only writer and
    writes an object with an integer ["count"] and a list of integers
    ["passing_ids"]; a reader may also find text that is not JSON, JSON
    that is not an object, an object without either key, a ["count"] that
    is not a number (null, a string, a list, an object), or a
    ["passing_ids"] that [set(...)] rejects. A number under ["count"] is
    taken to be an integer, and the members of a ["passing_ids"] list to
    be integers, as the notifier writes them. *)
Inductive count_json : Type :=
  | CountInt (n : Z)
  | CountOther.

Inductive ids_json : Type :=
  | IdList (ids : list Z)
  | NotIterable.

Inductive cache_json : Type :=
  | JObject (count : option count_json) (passing_ids : option ids_json)
  | JNotObject.

Inductive file_text : Type :=
  | JsonText (j : cache_json)
  | Garbage.

Module Payload.
Record t : Type := {
  event : string;
  passing : Z;
  total : Z;
  percentage : number;
  previous_passing : Z;
  tests_completed_this_session : Z;
  completed_tests : list string;
  project : string;
  timestamp : string }.
End Payload.
Abbreviation Payload := Payload.t.

Inductive console_line : Type :=
  | api_unavailable_in_count_passing_tests (e : exn)
  | api_error_getting_features (e : exn)
  | webhook_notification_failed (e : exn)
  | progress_line (passing total : Z)
  | no_features_yet.

(** What the notifier reads from its surroundings during one call. *)
Record Env : Type := {
  WEBHOOK_URL : option string;            (* os.environ.get(...) *)
  api : endpoint -> outcome api_json;     (* the server at API_BASE_URL *)
  sink_accepts : bool;                    (* does the POST to the sink succeed *)
  utcnow_isoformat : string;              (* datetime.utcnow().isoformat() *)
  project_dir_name : string }.            (* project_dir.name *)

(** What the notifier changes. *)
Record World : Type := {
  cache_file : option file_text;          (* project_dir / ".progress_cache" *)
  posted : list (list Payload);           (* request bodies sent to the sink *)
  delivered : list (list Payload);        (* those the sink accepted *)
  console : list console_line }.

Definition print (l : console_line) : M World unit :=
  fun w => (Return tt,
            {| cache_file := cache_file w; posted := posted w;
               delivered := delivered w; console := console w ++ [l] |}).

Definition write_text (t : file_text) : M World unit :=
  fun w => (Return tt,
            {| cache_file := Some t; posted := posted w;
               delivered := delivered w; console := console w |}).

(** [urllib.request.urlopen(req, timeout=5)] on the POST to the sink. *)
Definition urlopen_post (env : Env) (body : list Payload) : M World unit :=
  fun w =>
    if sink_accepts env then
      (Return tt, {| cache_file := cache_file w; posted := posted w ++ [body];
                     delivered := delivered w ++ [body]; console := console w |})
    else
      (Raise URLError, {| cache_file := cache_file w; posted := posted w ++ [body];
                          delivered := delivered w; console := console w |}).

(** [_api_get] (lines 21-37). *)
Definition _api_get (env : Env) (e : endpoint) : M World api_json :=
  lift (api env e).

Definition json_loads (t : file_text) : outcome cache_json :=
  match t with
  | JsonText j => Return j
  | Garbage => Raise JSONDecodeError
  end.

(** [cache_data.get("count", 0)]: whatever value the key holds. *)
Definition get_count (cache_data : cache_json) : outcome count_json :=
  match cache_data with
  | JObject c _ => Return (default (CountInt 0) c)
  | JNotObject => Raise AttributeError
  end.

(** [set(cache_data.get("passing_ids", []))] *)
Definition get_passing_ids (cache_data : cache_json) : outcome (gset Z) :=
  match cache_data with
  | JObject _ None => Return ∅
  | JObject _ (Some (IdList l)) => Return (list_to_set l)
  | JObject _ (Some NotIterable) => Raise TypeError
  | JNotObject => Raise AttributeError
  end.

(** [data.get("features", [])] *)
Definition get_features (data : api_json) : list FeatureResponse :=
  match data with
  | ListJson d => FeatureListResponse.features d
  | StatsJson _ => []
  end.

(** The entry of [completed_tests] for a newly passing feature
    (lines 92-97). The answer of the API carries every key
    ([FeatureResponse]), so the defaults of [feature.get] are not taken. *)
Definition completed_entry (feature : FeatureResponse) : string :=
  let desc := FeatureResponse.description feature in
  let category := FeatureResponse.category feature in
  if decide (category = "") then desc
  else "[" +:+ category +:+ "] " +:+ desc.

(** The body of the loop of lines 87-97, on the two lists it appends to. *)
Definition note_feature (previous_passing_ids : gset Z)
    (acc : list string * list Z) (feature : FeatureResponse)
  : list string * list Z :=
  let '(completed_tests, current_passing_ids) := acc in
  let feature_id := FeatureResponse.id feature in
  let current_passing_ids := current_passing_ids ++ [feature_id] in
  if decide (feature_id ∉ previous_passing_ids)
  then (completed_tests ++ [completed_entry feature], current_passing_ids)
  else (completed_tests, current_passing_ids).

(** Lines 66-76: [previous] and [previous_passing_ids] as read from the
    cache file. The handler resets [previous]; [previous_passing_ids] is
    assigned last in the block, so it is still [set()] whenever the
    handler runs. [previous] is not checked to be a number here. *)
Definition load_cache : M World (count_json * gset Z) :=
  w <~ get ;;
  match cache_file w with
  | Some text =>
      try_except
        (cache_data <~ lift (json_loads text) ;;
         previous <~ lift (get_count cache_data) ;;
         previous_passing_ids <~ lift (get_passing_ids cache_data) ;;
         ret (previous, previous_passing_ids))
        (fun _ => ret (CountInt 0, ∅))
  | None => ret (CountInt 0, ∅)
  end.

(** Lines 81-99: [completed_tests] and [current_passing_ids]; both stay
    empty when the request raises. *)
Definition fetch_passing (env : Env) (previous_passing_ids : gset Z)
  : M World (list string * list Z) :=
  try_except
    (data <~ _api_get env features_passing_1000 ;;
     ret (foldl (note_feature previous_passing_ids) ([], []) (get_features data)))
    (fun e => print (api_error_getting_features e) ;;; ret ([], [])).

(** Line 105: [round((passing / total) * 100, 1) if total > 0 else 0]. *)
Definition payload_percentage (passing total : Z) : M World number :=
  if 0 <? total
  then q <~ lift (PyFloat.truediv passing total) ;;
       ret (Float (PyFloat.round (PyFloat.mul q (PyFloat.of_int 100)) 1))
  else ret (Int 0).

(** [send_progress_webhook] (lines 60-139). The comparison
    [passing > previous] of line 79 stands outside every [try]: Python
    orders an integer against a number only, and raises [TypeError] on any
    other [previous]. *)
Definition send_progress_webhook (env : Env) (passing total : Z) : M World unit :=
  match WEBHOOK_URL env with
  | None | Some "" => ret tt
  | Some _ =>
    st <~ load_cache ;;
    let previous_passing_ids : gset Z := st.2 in
    match st.1 with
    | CountOther => raise TypeError
    | CountInt previous =>
    if previous <? passing then
      lists <~ fetch_passing env previous_passing_ids ;;
      let completed_tests : list string := lists.1 in
      let current_passing_ids : list Z := lists.2 in
      percentage <~ payload_percentage passing total ;;
      let payload :=
        {| Payload.event := "test_progress";
           Payload.passing := passing;
           Payload.total := total;
           Payload.percentage := percentage;
           Payload.previous_passing := previous;
           Payload.tests_completed_this_session := passing - previous;
           Payload.completed_tests := completed_tests;
           Payload.project := project_dir_name env;
           Payload.timestamp := utcnow_isoformat env +:+ "Z" |} in
      try_except (urlopen_post env [payload])
                 (fun e => print (webhook_notification_failed e)) ;;;
      write_text (JsonText (JObject (Some (CountInt passing))
                              (Some (IdList current_passing_ids))))
    else
      w <~ get ;;
      match cache_file w with
      | None =>
          current_passing_ids <~
            try_except
              (data <~ _api_get env features_passing_1000 ;;
               ret (FeatureResponse.id <$> get_features data))
              (fun _ => ret []) ;;
          write_text (JsonText (JObject (Some (CountInt passing))
                                  (Some (IdList current_passing_ids))))
      | Some _ => ret tt
      end
    end
  end.

(** [count_passing_tests] (lines 40-57). A stats answer carries both keys;
    any other answer has no ["passing"] key, and the [KeyError] is caught
    with every other exception. *)
Definition count_passing_tests (env : Env) : M World (Z * Z) :=
  try_except
    (stats <~ _api_get env features_stats ;;
     match stats with
     | StatsJson s => ret (StatsResponse.passing s, StatsResponse.total s)
     | ListJson _ => raise KeyError
     end)
    (fun e => print (api_unavailable_in_count_passing_tests e) ;;; ret (0, 0)).

(** [print_progress_summary] (lines 152-161). *)
Definition print_progress_summary (env : Env) : M World unit :=
  counts <~ count_passing_tests env ;;
  let passing := counts.1 in
  let total := counts.2 in
  if 0 <? total then
    print (progress_line passing total) ;;;
    send_progress_webhook env passing total
  else print no_features_yet.

(** The Feature API as the notifier sees it: unreachable, or serving a
    store through the handlers. *)
Definition serve (server : option Database) (e : endpoint) : outcome api_json :=
  match server with
  | None => Raise URLError
  | Some db =>
      match e with
      | features_stats =>
          match get_stats db with
          | (Return s, _) => Return (StatsJson s)
          | (Raise x, _) => Raise x
          end
      | features_passing_1000 =>
          match GET_features 1000 0 (Some true) None db with
          | (Return d, _) => Return (ListJson d)
          | (Raise x, _) => Raise x
          end
      end
  end.

(* ===================================================================== *)
(** * The vocabulary of the specification, and sample data *)
(* ===================================================================== *)

(** ** The feature store *)

(** Row [i] of the store is pending: stored, with [passes = false]. *)
Definition pending (db : Database) (r : Z * Feature) : Prop :=
  table db !! r.1 = Some r.2 /\ Feature.passes r.2 = false.

(** The percentage as the specification words it:
    [round(passing/total*100, 1)] when [total > 0], else [0.0]. *)
Definition spec_percentage (passing total : Z) : PyFloat.float :=
  if 0 <? total then
    PyFloat.round
      (PyFloat.mul
         (SFdiv PyFloat.prec PyFloat.emax (PyFloat.of_int passing) (PyFloat.of_int total))
         (PyFloat.of_int 100))
      1
  else PyFloat.zero.

(** The number of stored features, and of those with [passes = true]. *)
Definition total_count (db : Database) : Z := Z.of_nat (size (table db)).

Definition passing_count (db : Database) : Z :=
  Z.of_nat (size (filter (fun r : Z * Feature => Feature.passes r.2 = true) (table db))).

(** A row satisfies the optional filters of a list call. *)
Definition matches (passes : option bool) (category : option string)
    (f : Feature) : Prop :=
  match passes with Some v => Feature.passes f = v | None => True end
  /\ match category with Some c => Feature.category f = c | None => True end.

(** The rows [list_features] keeps after its two optional filters. *)
Definition selected (db : Database) (passes : option bool)
    (category : option string) : list (Z * Feature) :=
  let query1 := match passes with
                | Some v => filter_passes v (query db)
                | None => query db
                end in
  match category with
  | Some c => filter_category c query1
  | None => query1
  end.

(** [start] is the priority a create starts from,
    [max(existing priorities, default 0) + 1] (section 4.2): one more than
    the largest stored priority, and 0 + 1 on a store without features. *)
Definition is_start_priority (db : Database) (start : Z) : Prop :=
  (table db = ∅ /\ start = 1)
  \/ (exists i f, table db !! i = Some f
        /\ start = Feature.priority f + 1
        /\ forall j g, table db !! j = Some g -> Feature.priority g <= Feature.priority f).

(** What [FeatureCreate] rejects in a body. *)
Definition invalid_input (b : FeatureCreateBody) : Prop :=
  FeatureCreateBody.category b = ""
  \/ FeatureCreateBody.name b = ""
  \/ FeatureCreateBody.description b = ""
  \/ 100 < str_len (FeatureCreateBody.category b)
  \/ 255 < str_len (FeatureCreateBody.name b)
  \/ FeatureCreateBody.steps b = [].

(** The request that carries the four declared keys of [b], each with a
    value of its type, and the further keys of [b]. *)
Definition json_of (b : FeatureCreateBody) : json_field FeatureCreateJson :=
  Typed {| FeatureCreateJson.category := Typed (FeatureCreateBody.category b);
           FeatureCreateJson.name := Typed (FeatureCreateBody.name b);
           FeatureCreateJson.description := Typed (FeatureCreateBody.description b);
           FeatureCreateJson.steps := Typed (FeatureCreateBody.steps b);
           FeatureCreateJson.extra := FeatureCreateBody.extra b |}.

(** The bulk request whose ["features"] is the list of those requests. *)
Definition bulk_json_of (bs : list FeatureCreateBody)
  : json_field FeatureBulkCreateJson :=
  Typed {| FeatureBulkCreateJson.features := Typed (json_of <$> bs) |}.

(** The schema value a valid body is read into: its four declared keys. *)
Definition declared (b : FeatureCreateBody) : FeatureCreate :=
  {| FeatureCreate.category := FeatureCreateBody.category b;
     FeatureCreate.name := FeatureCreateBody.name b;
     FeatureCreate.description := FeatureCreateBody.description b;
     FeatureCreate.steps := FeatureCreateBody.steps b |}.

(** [max(existing priority, 0) + 1] (section 8) computed as a fold: the
    largest of the stored priorities and 0, plus one. *)
Definition max_with_zero_plus_one (db : Database) : Z :=
  foldr Z.max 0 ((fun r : Z * Feature => Feature.priority r.2) <$> query db) + 1.

(** The stores the service can be in when it starts empty and is changed
    through its handlers only. *)
Inductive reachable : Database -> Prop :=
  | reachable_empty : reachable empty_db
  | reachable_create db body :
      reachable db -> reachable (POST_features body db).2
  | reachable_create_bulk db body :
      reachable db -> reachable (POST_features_bulk body db).2
  | reachable_update db feature_id update :
      reachable db -> reachable (update_feature feature_id update db).2
  | reachable_delete db feature_id :
      reachable db -> reachable (delete_feature feature_id db).2.

(** ** Further vocabulary: the queue, stored rows, created rows *)

(** Row [r] (an id with its columns) is in the store. *)
Definition stored (db : Database) (r : Z * Feature) : Prop :=
  table db !! r.1 = Some r.2.

(** The pending features in the order [get_next_feature] serves them. *)
Definition pending_queue (db : Database) : list (Z * Feature) :=
  order_by_priority_id (filter_passes false (query db)).

(** All features in the order [list_features] lists them. *)
Definition all_rows (db : Database) : list (Z * Feature) :=
  order_by_priority_id (query db).

(** The rows a create of [features] adds to a store whose counter is at
    [first_id] and whose start priority is [start]: the n-th input under
    the n-th next id with the n-th next priority. *)
Definition created_rows (first_id start : Z) (features : list FeatureCreate)
  : list (Z * Feature) :=
  imap (fun n feature =>
          (first_id + Z.of_nat n, new_feature (start + Z.of_nat n) feature))
       features.

(** The bounds of [FeatureCreate], read on a stored row. *)
Definition within_schema (f : Feature) : Prop :=
  1 <= str_len (Feature.category f) <= 100
  /\ 1 <= str_len (Feature.name f) <= 255
  /\ 1 <= str_len (Feature.description f)
  /\ 1 <= list_len (Feature.steps f).

(** The answer of [get_next_feature] when nothing is pending. *)
Definition nothing_pending : exn :=
  HTTPException 404 "All features are passing! No more work to do.".

(** The answer of the handlers that look an id up and do not find it. *)
Definition not_found : exn := HTTPException 404 "Feature not found".

(** ** Sample requests and stores *)

Definition sample_body (category : string) (steps : list string)
    (extra : list (string * json_scalar)) : FeatureCreateBody :=
  {| FeatureCreateBody.category := category;
     FeatureCreateBody.name := "login form";
     FeatureCreateBody.description := "the user can log in";
     FeatureCreateBody.steps := steps;
     FeatureCreateBody.extra := extra |}.

Definition sample_row (priority : Z) (passes : bool) : Feature :=
  {| Feature.priority := priority;
     Feature.category := "ui";
     Feature.name := "login form";
     Feature.description := "the user can log in";
     Feature.steps := ["open the page"];
     Feature.passes := passes |}.

(** A store with one feature, of priority [p], under id 1. *)
Definition one_row_db (p : Z) : Database :=
  {| table := {[ 1 := sample_row p false ]}; next_id := 2 |}.

(** Ids 1 to 6 with priorities 3, 1, 2, 1, 5, 0; only feature 6 passes. *)
Definition six_db : Database :=
  {| table := <[1 := sample_row 3 false]> (<[2 := sample_row 1 false]>
              (<[3 := sample_row 2 false]> (<[4 := sample_row 1 false]>
              (<[5 := sample_row 5 false]> (<[6 := sample_row 0 true]> ∅)))));
     next_id := 7 |}.

(** Its pending rows in (priority, id) order. *)
Definition six_db_pending : list (Z * Feature) :=
  [(2, sample_row 1 false); (4, sample_row 1 false); (3, sample_row 2 false);
   (1, sample_row 3 false); (5, sample_row 5 false)].

(** ** The progress notifier *)

(** The webhook is configured: [WEBHOOK_URL] is a non-empty string. *)
Definition configured (env : Env) : Prop :=
  exists url, WEBHOOK_URL env = Some url /\ url <> "".

(** The integer under ["count"], 0 when there is none. *)
Definition int_of_count (count : option count_json) : Z :=
  match count with
  | Some (CountInt n) => n
  | _ => 0
  end.

(** The cache as section 4.4 reads it: [{count, passing_ids}], and
    [{0, ∅}] when the file is absent or corrupt. *)
Definition cache_of (c : option file_text) : Z * gset Z :=
  match c with
  | Some (JsonText (JObject count None)) => (int_of_count count, ∅)
  | Some (JsonText (JObject count (Some (IdList ids)))) =>
      (int_of_count count, list_to_set ids)
  | _ => (0, ∅)
  end.

(** The cached count is one [passing] can be compared with (line 79): the
    cache file is not an object that carries a ["count"] that is not a
    number next to a ["passing_ids"] the notifier can read. *)
Definition comparable_count (c : option file_text) : Prop :=
  forall ids, c = Some (JsonText (JObject (Some CountOther) ids)) ->
    ids = Some NotIterable.

(** The currently passing features as the API lists them; none when the
    request fails. *)
Definition currently_passing (env : Env) : list FeatureResponse :=
  match api env features_passing_1000 with
  | Return data => get_features data
  | Raise _ => []
  end.

(** The notification of section 4.4, step 3: the newly passing features
    and the aggregate counts. *)
Definition notification (env : Env) (passing total : Z) (c : option file_text)
  : Payload :=
  {| Payload.event := "test_progress";
     Payload.passing := passing;
     Payload.total := total;
     Payload.percentage :=
       if 0 <? total then Float (spec_percentage passing total) else Int 0;
     Payload.previous_passing := (cache_of c).1;
     Payload.tests_completed_this_session := passing - (cache_of c).1;
     Payload.completed_tests :=
       completed_entry
         <$> filter (fun f => FeatureResponse.id f ∉ (cache_of c).2)
                    (currently_passing env);
     Payload.project := project_dir_name env;
     Payload.timestamp := utcnow_isoformat env +:+ "Z" |}.

(** The cache file the notifier writes. *)
Definition cache_text (count : Z) (passing_ids : list Z) : file_text :=
  JsonText (JObject (Some (CountInt count)) (Some (IdList passing_ids))).

(** A cache file the notifier cannot read: absent, not JSON, JSON that is
    not an object, or an object whose ["passing_ids"] is not iterable. *)
Definition unreadable (c : option file_text) : Prop :=
  c = None
  \/ c = Some Garbage
  \/ c = Some (JsonText JNotObject)
  \/ exists count, c = Some (JsonText (JObject count (Some NotIterable))).

(** The ids the notifier writes to the cache: those the API lists. *)
Definition listed_ids (env : Env) : list Z :=
  FeatureResponse.id <$> currently_passing env.

(** ** Sample surroundings of the notifier *)

(** A store of five features, ids and priorities 1 to 5, of which 1, 2
    and 5 pass. *)
Definition progress_db : Database :=
  {| table := <[1 := sample_row 1 true]> (<[2 := sample_row 2 true]>
              (<[3 := sample_row 3 false]> (<[4 := sample_row 4 false]>
              (<[5 := sample_row 5 true]> ∅))));
     next_id := 6 |}.

(** What the API answers about it on ["/features?passes=true&limit=1000"]. *)
Definition progress_listing : FeatureListResponse :=
  {| FeatureListResponse.features :=
       [to_dict (1, sample_row 1 true); to_dict (2, sample_row 2 true);
        to_dict (5, sample_row 5 true)];
     FeatureListResponse.total := 3;
     FeatureListResponse.limit := 1000;
     FeatureListResponse.offset := 0 |}.

(** The API serves [server] (or is unreachable); the sink is up or down. *)
Definition sample_env (server : option Database) (sink_up : bool) : Env :=
  {| WEBHOOK_URL := Some "http://localhost:5678/webhook";
     api := serve server;
     sink_accepts := sink_up;
     utcnow_isoformat := "2024-05-01T12:00:00";
     project_dir_name := "demo" |}.

Definition sample_world (cache : option file_text) : World :=
  {| cache_file := cache; posted := []; delivered := []; console := [] |}.

(* ===================================================================== *)
(** * Properties of the queries *)
(* ===================================================================== *)

(** ** The two orders *)

#[global] Instance by_priority_id_total : Total by_priority_id.
Proof. intros a b. unfold by_priority_id. lia. Qed.

#[global] Instance by_priority_id_trans : Transitive by_priority_id.
Proof. intros a b c. unfold by_priority_id. lia. Qed.

#[global] Instance desc_total : Total desc.
Proof. intros a b. unfold desc. lia. Qed.

#[global] Instance desc_trans : Transitive desc.
Proof. intros a b c. unfold desc. lia. Qed.

Lemma by_priority_id_refl a : by_priority_id a a.
Proof. unfold by_priority_id. lia. Qed.

Lemma order_by_priority_id_perm rows : order_by_priority_id rows ≡ₚ rows.
Proof. apply merge_sort_Permutation. Qed.

Lemma order_by_priority_id_sorted rows :
  StronglySorted by_priority_id (order_by_priority_id rows).
Proof. apply StronglySorted_merge_sort; apply _. Qed.

(** The head of a sorted list precedes every member. *)
Lemma sorted_head_least {A} (R : relation A) (x : A) (l : list A) :
  (forall a, R a a) -> StronglySorted R (x :: l) ->
  forall y, y ∈ x :: l -> R x y.
Proof.
  intros Hrefl Hs y Hy. apply StronglySorted_inv in Hs as [_ Hall].
  apply elem_of_cons in Hy as [->|Hy]; [apply Hrefl|].
  rewrite Forall_forall in Hall. by apply Hall.
Qed.

(** ** The rows of one store *)

Section Queries.

Variable db : Database.

(** Two rows of one table that precede each other are the same row. *)
Lemma by_priority_id_antisym (a b : Z * Feature) :
  table db !! a.1 = Some a.2 -> table db !! b.1 = Some b.2 ->
  by_priority_id a b -> by_priority_id b a -> a = b.
Proof.
  destruct a as [i f], b as [j g]; unfold by_priority_id; simpl.
  intros Ha Hb Hab Hba.
  assert (i = j) by lia. subst j. congruence.
Qed.

Lemma elem_of_query (r : Z * Feature) :
  r ∈ query db <-> table db !! r.1 = Some r.2.
Proof. unfold query. apply elem_of_map_to_list'. Qed.

Lemma NoDup_query : NoDup (query db).
Proof. apply NoDup_map_to_list. Qed.

(** The rows a filtered query keeps. *)
Lemma elem_of_filter_passes v (r : Z * Feature) :
  r ∈ filter_passes v (query db)
  <-> table db !! r.1 = Some r.2 /\ Feature.passes r.2 = v.
Proof.
  unfold filter_passes. rewrite list_elem_of_filter, elem_of_query. tauto.
Qed.

(** Counting through the list of rows is counting in the table. *)
Lemma count_query : count (query db) = Z.of_nat (size (table db)).
Proof. unfold count, query. by rewrite length_map_to_list. Qed.

Lemma filter_query_perm (P : Z * Feature -> Prop) `{!forall r, Decision (P r)} :
  filter P (query db) ≡ₚ map_to_list (filter P (table db)).
Proof.
  apply NoDup_Permutation.
  - apply NoDup_filter, NoDup_query.
  - apply NoDup_map_to_list.
  - intros [i f]. rewrite list_elem_of_filter, elem_of_query, elem_of_map_to_list.
    rewrite map_lookup_filter_Some. simpl. tauto.
Qed.

Lemma count_filter_passes v :
  count (filter_passes v (query db))
  = Z.of_nat (size (filter (fun r : Z * Feature => Feature.passes r.2 = v) (table db))).
Proof.
  unfold count, filter_passes. rewrite filter_query_perm.
  by rewrite length_map_to_list.
Qed.

End Queries.

(* ===================================================================== *)
(** * Next pending feature *)
(* ===================================================================== *)

(** C2. On every store, [get_next_feature] leaves the store as it is and
    either returns a pending feature that precedes every pending feature in
    the (priority ascending, id ascending) order, and is the only pending
    feature that does; or, exactly when no feature is pending (an empty
    store included), fails with the 404 [HTTPException] and returns no
    feature. *)
Theorem get_next_feature_least_pending (db : Database) :
  match get_next_feature db with
  | (Return resp, db') =>
      db' = db
      /\ exists r, resp = to_dict r
         /\ pending db r
         /\ (forall r', pending db r' -> by_priority_id r r')
         /\ (forall r', pending db r' ->
               (forall r'', pending db r'' -> by_priority_id r' r'') -> r' = r)
  | (Raise e, db') =>
      db' = db
      /\ e = HTTPException 404 "All features are passing! No more work to do."
      /\ (forall r, ~ pending db r)
  end.
Proof.
  unfold get_next_feature, bind, get, first. simpl.
  pose proof (order_by_priority_id_perm (filter_passes false (query db))) as Hperm.
  pose proof (order_by_priority_id_sorted (filter_passes false (query db))) as Hsorted.
  destruct (order_by_priority_id (filter_passes false (query db))) as [|r rest] eqn:E;
    simpl.
  - split; [done|]. split; [done|].
    intros r Hr. apply elem_of_filter_passes in Hr.
    rewrite <- Hperm in Hr. by apply elem_of_nil in Hr.
  - split; [done|]. exists r.
    assert (Hmem : forall x, pending db x <-> x ∈ r :: rest).
    { intros x. unfold pending. rewrite <- elem_of_filter_passes. by rewrite Hperm. }
    assert (Hleast : forall r', pending db r' -> by_priority_id r r').
    { intros r' Hr'. apply (sorted_head_least _ r rest); auto using by_priority_id_refl.
      by apply Hmem. }
    assert (Hr : pending db r) by (apply Hmem; left).
    repeat split; try done; try apply Hr.
    intros r' Hr' Hmin.
    apply (by_priority_id_antisym db); try apply Hr; try apply Hr'; auto.
Qed.

(* ===================================================================== *)
(** * Statistics *)
(* ===================================================================== *)

(** C6. On every store [get_stats] returns, without raising (the division
    is never reached with [total = 0]) and without changing the store, the
    number of passing features, the number of features, and the percentage
    [round(passing/total*100, 1)] when [total > 0] and [0.0] otherwise; the
    percentage of an empty store is [0.0], and that of 3 passing out of 4
    is [75.0] (the double 5277655813324800 * 2^-46). *)
Theorem get_stats_percentage (db : Database) :
  get_stats db
  = (Return {| StatsResponse.passing := passing_count db;
               StatsResponse.total := total_count db;
               StatsResponse.percentage :=
                 spec_percentage (passing_count db) (total_count db) |}, db)
  /\ (forall passing, spec_percentage passing 0 = S754_zero false)
  /\ spec_percentage 3 4 = S754_finite false 5277655813324800 (-46)
  /\ PyFloat.of_int 75 = S754_finite false 5277655813324800 (-46).
Proof.
  split; [|split; [|split]]; try reflexivity.
  unfold get_stats, bind, get, ret, lift. simpl.
  rewrite count_query, count_filter_passes.
  fold (total_count db) (passing_count db).
  unfold spec_percentage, PyFloat.truediv.
  destruct (0 <? total_count db) eqn:Hpos; [|done].
  apply Z.ltb_lt in Hpos.
  destruct (total_count db =? 0) eqn:Hz; [apply Z.eqb_eq in Hz; lia|].
  done.
Qed.

(* ===================================================================== *)
(** * Updating the pass status *)
(* ===================================================================== *)

(** C9. [update_feature] on an id the store holds replaces that row by one
    that differs from it in [passes] only (set to the value given), keeps
    every other row and the id counter, and returns the updated row under
    its unchanged id; on an id the store does not hold it raises the 404
    [HTTPException] and leaves the store as it is. *)
Theorem update_feature_only_passes (db : Database) (feature_id : Z) (v : bool) :
  match table db !! feature_id with
  | Some f =>
      exists db' f',
        update_feature feature_id {| FeatureUpdate.passes := v |} db
        = (Return (to_dict (feature_id, f')), db')
        /\ table db' !! feature_id = Some f'
        /\ Feature.passes f' = v
        /\ Feature.priority f' = Feature.priority f
        /\ Feature.category f' = Feature.category f
        /\ Feature.name f' = Feature.name f
        /\ Feature.description f' = Feature.description f
        /\ Feature.steps f' = Feature.steps f
        /\ FeatureResponse.id (to_dict (feature_id, f')) = feature_id
        /\ (forall j, j <> feature_id -> table db' !! j = table db !! j)
        /\ next_id db' = next_id db
  | None =>
      update_feature feature_id {| FeatureUpdate.passes := v |} db
      = (Raise (HTTPException 404 "Feature not found"), db)
  end.
Proof.
  unfold update_feature, bind, get, put, refresh, ret. simpl.
  destruct (table db !! feature_id) as [f|] eqn:E; [|done].
  eexists _, (set_passes v f). simpl.
  rewrite lookup_insert_eq. simpl.
  repeat split; try done.
  - apply lookup_insert_eq.
  - intros j Hj. by apply lookup_insert_ne.
Qed.

(* ===================================================================== *)
(** * Listing with filters and pagination *)
(* ===================================================================== *)

Lemma elem_of_selected db passes category (r : Z * Feature) :
  r ∈ selected db passes category
  <-> table db !! r.1 = Some r.2 /\ matches passes category r.2.
Proof.
  unfold selected, matches, filter_category, filter_passes.
  destruct passes, category;
    rewrite ?list_elem_of_filter, ?elem_of_query; tauto.
Qed.

Lemma NoDup_selected db passes category : NoDup (selected db passes category).
Proof.
  unfold selected, filter_category, filter_passes.
  destruct passes, category; repeat apply NoDup_filter; apply NoDup_query.
Qed.

(** A duplicate-free sorted list of the selected rows is the one the
    handler computes. *)
Lemma order_by_priority_id_unique db passes category ordered :
  Sorted by_priority_id ordered -> NoDup ordered ->
  (forall r, r ∈ ordered
             <-> table db !! r.1 = Some r.2 /\ matches passes category r.2) ->
  order_by_priority_id (selected db passes category) = ordered.
Proof.
  intros Hsorted Hnodup Hmem.
  apply (StronglySorted_unique_strong by_priority_id).
  - intros x1 x2 H1 H2.
    rewrite order_by_priority_id_perm in H1.
    apply elem_of_selected in H1 as [H1 _]. apply Hmem in H2 as [H2 _].
    by apply (by_priority_id_antisym db).
  - apply order_by_priority_id_sorted.
  - by apply (Sorted_StronglySorted by_priority_id).
  - rewrite order_by_priority_id_perm.
    apply NoDup_Permutation; [apply NoDup_selected|done|].
    intros r. by rewrite elem_of_selected, Hmem.
Qed.

(** Such a list exists for every store and every pair of filters. *)
Lemma ordered_rows_exist db passes category :
  exists ordered,
    Sorted by_priority_id ordered /\ NoDup ordered
    /\ forall r, r ∈ ordered
                 <-> table db !! r.1 = Some r.2 /\ matches passes category r.2.
Proof.
  exists (order_by_priority_id (selected db passes category)).
  split; [apply Sorted_merge_sort; apply _|]. split.
  - rewrite order_by_priority_id_perm. apply NoDup_selected.
  - intros r. rewrite order_by_priority_id_perm. apply elem_of_selected.
Qed.

(** C7. For every store, filters, [limit] in [1,1000] and [offset >= 0]:
    if [ordered] is the list, sorted by (priority ascending, id ascending)
    and without repetition, of exactly the stored rows that satisfy the
    filters, then the list call returns the rows of [ordered] from position
    [offset] on, at most [limit] of them, and [total] is the length of
    [ordered], whatever the window; it changes nothing in the store. With
    five such rows, [limit=2] and [offset=1] return the second and the third
    and [total=5]. *)
Theorem list_features_window (db : Database) (limit offset : Z)
    (passes : option bool) (category : option string)
    (ordered : list (Z * Feature)) :
  1 <= limit <= 1000 -> 0 <= offset ->
  Sorted by_priority_id ordered -> NoDup ordered ->
  (forall r, r ∈ ordered
             <-> table db !! r.1 = Some r.2 /\ matches passes category r.2) ->
  GET_features limit offset passes category db
  = (Return {| FeatureListResponse.features :=
                 to_dict <$> take (Z.to_nat limit) (drop (Z.to_nat offset) ordered);
               FeatureListResponse.total := Z.of_nat (length ordered);
               FeatureListResponse.limit := limit;
               FeatureListResponse.offset := offset |}, db)
  /\ (forall r1 r2 r3 r4 r5, ordered = [r1; r2; r3; r4; r5] ->
        GET_features 2 1 passes category db
        = (Return {| FeatureListResponse.features := [to_dict r2; to_dict r3];
                     FeatureListResponse.total := 5;
                     FeatureListResponse.limit := 2;
                     FeatureListResponse.offset := 1 |}, db)).
Proof.
  intros Hlimit Hoffset Hsorted Hnodup Hmem.
  assert (Hcall : forall limit' offset',
             1 <= limit' <= 1000 -> 0 <= offset' ->
             GET_features limit' offset' passes category db
             = (Return {| FeatureListResponse.features :=
                            to_dict <$> take (Z.to_nat limit')
                                             (drop (Z.to_nat offset') ordered);
                          FeatureListResponse.total := Z.of_nat (length ordered);
                          FeatureListResponse.limit := limit';
                          FeatureListResponse.offset := offset' |}, db)).
  { intros limit' offset' Hl Ho.
    unfold GET_features, list_query_constraints.
    replace ((1 <=? limit') && (limit' <=? 1000) && (0 <=? offset')) with true
      by (symmetry; rewrite !andb_true_iff, !Z.leb_le; lia).
    unfold list_features, bind, get, ret, offset_limit, count. simpl.
    fold (selected db passes category).
    pose proof (order_by_priority_id_unique db passes category ordered
                  Hsorted Hnodup Hmem) as Heq.
    rewrite Heq.
    rewrite <- (order_by_priority_id_perm (selected db passes category)), Heq.
    done. }
  split; [by apply Hcall|].
  intros r1 r2 r3 r4 r5 ->. rewrite Hcall by lia. done.
Qed.

(* ===================================================================== *)
(** * Creating features *)
(* ===================================================================== *)

(** ** The store invariant *)

Lemma wf_db_empty : wf_db empty_db.
Proof. intros i [f Hf]. unfold empty_db in Hf; simpl in Hf. by rewrite lookup_empty in Hf. Qed.

Lemma add_spec (row : Feature) (db : Database) :
  exists db', add row db = (Return (next_id db), db')
    /\ next_id db' = next_id db + 1
    /\ table db' !! next_id db = Some row
    /\ (forall k, k <> next_id db -> table db' !! k = table db !! k).
Proof.
  eexists. split; [reflexivity|]. simpl. repeat split.
  - apply lookup_insert_eq.
  - intros k Hk. by apply lookup_insert_ne.
Qed.

(** ** The next priority *)

Lemma next_priority_is_start (db : Database) : is_start_priority db (next_priority db).
Proof.
  unfold next_priority, first, order_by_desc.
  set (ps := (fun r : Z * Feature => Feature.priority r.2) <$> query db).
  pose proof (merge_sort_Permutation desc ps) as Hperm.
  pose proof (StronglySorted_merge_sort desc ps) as Hsorted.
  destruct (merge_sort desc ps) as [|p rest] eqn:E; simpl.
  - left. split; [|done].
    apply Permutation_nil in Hperm.
    apply fmap_nil_inv in Hperm. by apply map_to_list_empty_iff.
  - right.
    assert (Hp : p ∈ ps) by (rewrite <- Hperm; left).
    apply list_elem_of_fmap in Hp as ([i f] & Hpf & Hr).
    apply elem_of_query in Hr. simpl in Hr, Hpf.
    exists i, f. split; [done|]. split; [by rewrite Hpf|].
    intros j g Hg.
    assert (Hin : Feature.priority g ∈ p :: rest).
    { rewrite Hperm. apply (list_elem_of_fmap_2' _ _ (j, g)); [|done].
      by apply elem_of_query. }
    pose proof (sorted_head_least desc _ _ (fun a => Z.le_refl a) Hsorted _ Hin) as Hle.
    unfold desc in Hle. lia.
Qed.

Lemma is_start_priority_unique (db : Database) (s1 s2 : Z) :
  is_start_priority db s1 -> is_start_priority db s2 -> s1 = s2.
Proof.
  intros [[He1 ->]|(i & f & Hf & -> & Hmax1)] [[He2 ->]|(j & g & Hg & -> & Hmax2)];
    try done.
  - rewrite He1, lookup_empty in Hg. done.
  - rewrite He2, lookup_empty in Hf. done.
  - pose proof (Hmax1 _ _ Hg). pose proof (Hmax2 _ _ Hf). lia.
Qed.

(** ** Validation *)

Lemma str_len_pos (s : string) : (1 <=? str_len s) = false <-> s = "".
Proof.
  unfold str_len. destruct s; simpl; [done|].
  split; [|done]. intros H. apply Z.leb_gt in H. lia.
Qed.

Lemma list_len_pos {A} (l : list A) : (1 <=? list_len l) = false <-> l = [].
Proof.
  unfold list_len. destruct l; simpl; [done|].
  split; [|done]. intros H. apply Z.leb_gt in H. lia.
Qed.

Lemma FeatureCreate_constraints_false (b : FeatureCreateBody) :
  FeatureCreate_constraints b = false <-> invalid_input b.
Proof.
  unfold FeatureCreate_constraints, invalid_input.
  rewrite !andb_false_iff, !str_len_pos, list_len_pos, !Z.leb_gt. tauto.
Qed.

Lemma parse_FeatureCreate_invalid (b : FeatureCreateBody) :
  invalid_input b -> parse_FeatureCreate b = Raise RequestValidationError.
Proof.
  intros H. apply FeatureCreate_constraints_false in H.
  unfold parse_FeatureCreate. by rewrite H.
Qed.

Lemma parse_FeatureCreate_cases (b : FeatureCreateBody) :
  (invalid_input b /\ parse_FeatureCreate b = Raise RequestValidationError)
  \/ (~ invalid_input b /\ parse_FeatureCreate b = Return (declared b)).
Proof.
  unfold parse_FeatureCreate.
  destruct (FeatureCreate_constraints b) eqn:E.
  - right. split; [|done]. rewrite <- FeatureCreate_constraints_false. congruence.
  - left. split; [|done]. by apply FeatureCreate_constraints_false.
Qed.

Lemma parse_items_cases (bs : list FeatureCreateBody) :
  (Exists invalid_input bs /\ parse_items bs = Raise RequestValidationError)
  \/ (Forall (fun b => ~ invalid_input b) bs
      /\ parse_items bs = Return (declared <$> bs)).
Proof.
  induction bs as [|b bs IH]; simpl.
  - right. by split.
  - destruct (parse_FeatureCreate_cases b) as [[Hb ->]|[Hb ->]].
    + left. split; [by left|done].
    + destruct IH as [[Hbs ->]|[Hbs ->]].
      * left. split; [by right|done].
      * right. split; [by constructor|done].
Qed.

Lemma parse_FeatureBulkCreate_cases (bs : list FeatureCreateBody) :
  ((bs = [] \/ Exists invalid_input bs)
   /\ parse_FeatureBulkCreate bs = Raise RequestValidationError)
  \/ (bs <> [] /\ Forall (fun b => ~ invalid_input b) bs
      /\ parse_FeatureBulkCreate bs
         = Return {| FeatureBulkCreate.features := declared <$> bs |}).
Proof.
  unfold parse_FeatureBulkCreate.
  destruct (1 <=? list_len bs) eqn:E.
  - assert (bs <> []) by (intros ->; done).
    destruct (parse_items_cases bs) as [[Hbs ->]|[Hbs ->]]; [left|right]; auto.
  - left. apply list_len_pos in E. auto.
Qed.

(** ** The bulk loop *)

Lemma bulk_loop_spec (start_priority : Z) (features : list FeatureCreate) :
  forall (i created_count : Z) (db : Database),
  exists db',
    bulk_loop start_priority i features created_count db
    = (Return (created_count + list_len features), db')
    /\ next_id db' = next_id db + list_len features
    /\ (forall (n : nat) f, features !! n = Some f ->
          table db' !! (next_id db + Z.of_nat n)
          = Some (new_feature (start_priority + (i + Z.of_nat n)) f))
    /\ (forall k, k < next_id db \/ next_id db + list_len features <= k ->
          table db' !! k = table db !! k).
Proof.
  unfold list_len.
  induction features as [|f rest IH]; intros i c db.
  - exists db. simpl. unfold ret. repeat split.
    + f_equal. f_equal. lia.
    + lia.
    + intros n g Hn. by rewrite lookup_nil in Hn.
  - simpl. unfold bind at 1.
    destruct (add_spec (new_feature (start_priority + i) f) db)
      as (db1 & -> & Hnext1 & Hnew1 & Hold1).
    destruct (IH (i + 1) (c + 1) db1) as (db' & -> & Hnext & Hnew & Hold).
    exists db'. repeat split.
    + f_equal. f_equal. lia.
    + lia.
    + intros [|n] g Hn; simpl in Hn.
      * injection Hn as <-. rewrite Hold by lia.
        replace (next_id db + Z.of_nat 0) with (next_id db) by lia.
        replace (i + Z.of_nat 0) with i by lia. done.
      * specialize (Hnew n g Hn).
        replace (next_id db + Z.of_nat (S n)) with (next_id db1 + Z.of_nat n) by lia.
        replace (i + Z.of_nat (S n)) with (i + 1 + Z.of_nat n) by lia. done.
    + intros k Hk. rewrite Hold by lia. apply Hold1. lia.
Qed.

(** ** The two create operations *)

Lemma create_feature_spec (feature : FeatureCreate) (db : Database) :
  create_feature feature db
  = (Return (to_dict (next_id db, new_feature (next_priority db) feature)),
     {| table := <[next_id db := new_feature (next_priority db) feature]> (table db);
        next_id := next_id db + 1 |}).
Proof.
  unfold create_feature, bind, get, add, refresh, ret. simpl.
  by rewrite lookup_insert_eq.
Qed.

Lemma create_features_bulk_spec (data : FeatureBulkCreate) (db : Database) :
  exists db',
    create_features_bulk data db
    = (Return {| BulkCreateResponse.created := list_len (FeatureBulkCreate.features data) |}, db')
    /\ next_id db' = next_id db + list_len (FeatureBulkCreate.features data)
    /\ (forall (n : nat) f, FeatureBulkCreate.features data !! n = Some f ->
          table db' !! (next_id db + Z.of_nat n)
          = Some (new_feature (next_priority db + Z.of_nat n) f))
    /\ (forall k, k < next_id db
                  \/ next_id db + list_len (FeatureBulkCreate.features data) <= k ->
          table db' !! k = table db !! k).
Proof.
  unfold create_features_bulk, bind, get. simpl.
  destruct (bulk_loop_spec (next_priority db) (FeatureBulkCreate.features data) 0 0 db)
    as (db' & -> & Hnext & Hnew & Hold).
  exists db'. unfold ret. repeat split; done.
Qed.

(** On a store whose largest priority is not negative, the worded start is
    the start the handlers use. *)
Lemma max_with_zero_plus_one_nonneg (db : Database) (start : Z) :
  is_start_priority db start ->
  (forall i f, table db !! i = Some f -> 0 <= Feature.priority f) ->
  max_with_zero_plus_one db = start.
Proof.
  unfold max_with_zero_plus_one.
  intros Hstart Hnonneg.
  assert (Hfold : forall l : list Z,
             (forall x, x ∈ l -> 0 <= x) ->
             (l = [] /\ foldr Z.max 0 l = 0)
             \/ (foldr Z.max 0 l ∈ l /\ forall x, x ∈ l -> x <= foldr Z.max 0 l)).
  { induction l as [|a l IH]; intros Hl; [by left|right]. simpl.
    assert (Hl' : forall x, x ∈ l -> 0 <= x) by (intros x Hx; apply Hl; by right).
    destruct (IH Hl') as [[-> ->]|[Hin Hmax]].
    - simpl. assert (0 <= a) by (apply Hl; left).
      rewrite Z.max_l by lia. split; [left|].
      intros x Hx. apply list_elem_of_singleton in Hx. lia.
    - split.
      + destruct (Z.max_spec a (foldr Z.max 0 l)) as [[_ ->]|[_ ->]];
          [by right|left].
      + intros x Hx. apply elem_of_cons in Hx as [->|Hx]; [lia|].
        specialize (Hmax x Hx). lia. }
  set (ps := (fun r : Z * Feature => Feature.priority r.2) <$> query db) in *.
  assert (Hps : forall x, x ∈ ps <-> exists i f, table db !! i = Some f /\ x = Feature.priority f).
  { intros x. unfold ps. rewrite list_elem_of_fmap. split.
    - intros ([i f] & -> & Hr). apply elem_of_query in Hr. by exists i, f.
    - intros (i & f & Hf & ->). exists (i, f). split; [done|]. by apply elem_of_query. }
  destruct (Hfold ps) as [[Hnil Hz]|[Hin Hmax]].
  { intros x Hx. apply Hps in Hx as (i & f & Hf & ->). eauto. }
  - rewrite Hz. destruct Hstart as [[_ ->]|(i & f & Hf & _ & _)]; [done|].
    assert (Feature.priority f ∈ ps) as Hx by (apply Hps; eauto).
    rewrite Hnil in Hx. by apply elem_of_nil in Hx.
  - apply Hps in Hin as (i & f & Hf & Heq).
    destruct Hstart as [[He _]|(j & g & Hg & -> & Hgmax)].
    { rewrite He, lookup_empty in Hf. done. }
    assert (Feature.priority g <= foldr Z.max 0 ps) by (apply Hmax, Hps; eauto).
    specialize (Hgmax i f Hf). lia.
Qed.

(** ** What the handlers keep *)

Lemma create_features_bulk_rows (data : FeatureBulkCreate) (db : Database) :
  forall k row, table (create_features_bulk data db).2 !! k = Some row ->
    table db !! k = Some row
    \/ exists (n : nat) f,
         FeatureBulkCreate.features data !! n = Some f
         /\ k = next_id db + Z.of_nat n
         /\ row = new_feature (next_priority db + Z.of_nat n) f.
Proof.
  destruct (create_features_bulk_spec data db) as (db' & -> & Hnext & Hnew & Hold).
  simpl. intros k row Hk.
  destruct (decide (next_id db <= k
                    < next_id db + list_len (FeatureBulkCreate.features data)))
    as [Hin|Hout].
  - right.
    assert (Hn : exists f, FeatureBulkCreate.features data !! Z.to_nat (k - next_id db) = Some f).
    { apply lookup_lt_is_Some_2. unfold list_len in Hin. lia. }
    destruct Hn as [f Hf]. exists (Z.to_nat (k - next_id db)), f.
    split; [done|]. split; [lia|].
    specialize (Hnew _ _ Hf).
    replace (next_id db + Z.of_nat (Z.to_nat (k - next_id db))) with k in Hnew by lia.
    rewrite Hnew in Hk. by injection Hk as <-.
  - left. rewrite <- Hold; [done|lia].
Qed.

Lemma next_priority_pos (db : Database) :
  (forall i f, table db !! i = Some f -> 1 <= Feature.priority f) ->
  1 <= next_priority db.
Proof.
  intros Hpos.
  destruct (next_priority_is_start db) as [[_ ->]|(i & f & Hf & -> & _)]; [lia|].
  specialize (Hpos i f Hf). lia.
Qed.

(** The store invariant: every stored id was handed out by the counter,
    and every stored priority is at least 1. *)
Lemma reachable_invariant (db : Database) :
  reachable db ->
  wf_db db /\ forall i f, table db !! i = Some f -> 1 <= Feature.priority f.
Proof.
  induction 1 as [|db body _ [Hwf Hpos]|db body _ [Hwf Hpos]
                  |db feature_id update _ [Hwf Hpos]|db feature_id _ [Hwf Hpos]].
  - split; [apply wf_db_empty|].
    intros i f Hf. unfold empty_db in Hf; simpl in Hf. by rewrite lookup_empty in Hf.
  - unfold POST_features, bind, lift.
    destruct (parse_FeatureCreate_cases body) as [[_ ->]|[_ ->]]; [done|].
    rewrite create_feature_spec. simpl. split.
    + intros i [f Hf]. simpl in Hf |- *.
      destruct (decide (i = next_id db)) as [->|Hne]; [lia|].
      rewrite lookup_insert_ne in Hf by done.
      assert (i < next_id db) by (apply Hwf; eauto). lia.
    + intros i f Hf.
      destruct (decide (i = next_id db)) as [->|Hne].
      * rewrite lookup_insert_eq in Hf. injection Hf as <-. simpl.
        by apply next_priority_pos.
      * rewrite lookup_insert_ne in Hf by done. eauto.
  - unfold POST_features_bulk, bind, lift.
    destruct (parse_FeatureBulkCreate_cases body) as [[_ ->]|(_ & _ & ->)]; [done|].
    set (data := {| FeatureBulkCreate.features := declared <$> body |}).
    pose proof (create_features_bulk_rows data db) as Hrows.
    destruct (create_features_bulk_spec data db) as (db' & Heq & Hnext & _ & _).
    rewrite Heq in Hrows |- *. simpl in *. split.
    + intros i [f Hf]. destruct (Hrows i f Hf) as [Hold|(n & g & Hn & -> & _)].
      * assert (i < next_id db) by (apply Hwf; eauto). unfold list_len in *. lia.
      * apply lookup_lt_Some in Hn. unfold list_len in *. lia.
    + intros i f Hf. destruct (Hrows i f Hf) as [Hold|(n & g & Hn & _ & ->)]; [eauto|].
      simpl. pose proof (next_priority_pos db Hpos). lia.
  - unfold update_feature, bind, get, put, refresh, ret. simpl.
    destruct (table db !! feature_id) as [f|] eqn:E; [|done]. simpl. split.
    + intros i [g Hg]. simpl in Hg.
      destruct (decide (i = feature_id)) as [->|Hne]; [apply Hwf; eauto|].
      rewrite lookup_insert_ne in Hg by done. apply Hwf; eauto.
    + intros i g Hg.
      destruct (decide (i = feature_id)) as [->|Hne].
      * rewrite lookup_insert_eq in Hg. injection Hg as <-. simpl. eauto.
      * rewrite lookup_insert_ne in Hg by done. eauto.
  - unfold delete_feature, bind, get, put. simpl.
    destruct (table db !! feature_id) as [f|] eqn:E; [|done]. simpl. split.
    + intros i [g Hg]. simpl in Hg.
      apply lookup_delete_Some in Hg as [_ Hg]. apply Hwf; eauto.
    + intros i g Hg. apply lookup_delete_Some in Hg as [_ Hg]. eauto.
Qed.

(** On a reachable store the start priority is [max(existing priority, 0) + 1]. *)
Lemma reachable_start_priority (db : Database) :
  reachable db -> next_priority db = max_with_zero_plus_one db.
Proof.
  intros Hr. destruct (reachable_invariant db Hr) as [_ Hpos]. symmetry.
  apply max_with_zero_plus_one_nonneg; [apply next_priority_is_start|].
  intros i f Hf. specialize (Hpos i f Hf). lia.
Qed.

(** ** The one-row store *)

Lemma wf_one_row_db p : wf_db (one_row_db p).
Proof.
  intros i [f Hf]. unfold one_row_db in *; simpl in *.
  apply lookup_singleton_Some in Hf as [<- _]. lia.
Qed.

Lemma start_one_row_db p : is_start_priority (one_row_db p) (p + 1).
Proof.
  right. exists 1, (sample_row p false). unfold one_row_db; simpl.
  split; [apply lookup_singleton_eq|]. split; [done|].
  intros j g Hg. apply lookup_singleton_Some in Hg as [_ <-]. done.
Qed.

(** ** Bulk create: sequential priorities *)

(** C4. For every well-formed store and every valid bulk-create body of N
    features, where [start] is [max(existing priority, 0) + 1] read as
    section 4.2 words it, the largest stored priority, 0 by default when
    there is none, plus one: the call returns [created = N]; the n-th
    input (from 0) is stored under the n-th fresh id with priority
    [start + n], its own category, name, description and steps, and
    [passes = false]; the rows stored before are kept and no other row
    appears. On every store reached from the empty one through the
    handlers, and on every store without a negative priority, [start] is
    also the largest of the stored priorities and 0, plus one. *)
Theorem create_features_bulk_sequential (db : Database)
    (body : list FeatureCreateBody) (start : Z) :
  wf_db db ->
  body <> [] ->
  Forall (fun b => FeatureCreate_constraints b = true) body ->
  is_start_priority db start ->
  exists db',
    POST_features_bulk body db
    = (Return {| BulkCreateResponse.created := list_len body |}, db')
    /\ (forall (n : nat) b, body !! n = Some b ->
          table db !! (next_id db + Z.of_nat n) = None
          /\ table db' !! (next_id db + Z.of_nat n)
             = Some {| Feature.priority := start + Z.of_nat n;
                       Feature.category := FeatureCreateBody.category b;
                       Feature.name := FeatureCreateBody.name b;
                       Feature.description := FeatureCreateBody.description b;
                       Feature.steps := FeatureCreateBody.steps b;
                       Feature.passes := false |})
    /\ (forall k f, table db !! k = Some f -> table db' !! k = Some f)
    /\ (forall k, is_Some (table db' !! k) ->
          is_Some (table db !! k) \/ next_id db <= k < next_id db + list_len body)
    /\ wf_db db'
    /\ ((forall i f, table db !! i = Some f -> 0 <= Feature.priority f) ->
        start = max_with_zero_plus_one db)
    /\ (reachable db -> start = max_with_zero_plus_one db).
Proof.
  intros Hwf Hne Hvalid Hstart.
  rewrite (is_start_priority_unique db start (next_priority db) Hstart
             (next_priority_is_start db)).
  unfold POST_features_bulk, bind, lift.
  destruct (parse_FeatureBulkCreate_cases body) as [[[?|Hex] _]|(_ & _ & ->)]; [done| |].
  { apply Exists_exists in Hex as (b & Hb & Hinv).
    rewrite Forall_forall in Hvalid. specialize (Hvalid b Hb).
    apply FeatureCreate_constraints_false in Hinv. congruence. }
  destruct (create_features_bulk_spec {| FeatureBulkCreate.features := declared <$> body |} db)
    as (db' & -> & Hnext & Hnew & Hold).
  simpl in *. unfold list_len in *. rewrite length_fmap in *.
  exists db'. split; [done|].
  assert (Hfree : forall k, next_id db <= k -> table db !! k = None).
  { intros k Hk. destruct (table db !! k) eqn:E; [|done].
    assert (k < next_id db) by (apply Hwf; eauto). lia. }
  split; [|split; [|split; [|split; [|split]]]].
  - intros n b Hb. split; [apply Hfree; lia|].
    rewrite (Hnew n (declared b)); [done|].
    by rewrite list_lookup_fmap, Hb.
  - intros k f Hf. rewrite Hold; [done|]. left. apply Hwf. eauto.
  - intros k Hk.
    destruct (decide (next_id db <= k < next_id db + Z.of_nat (length body)));
      [by right|left].
    rewrite <- Hold; [done|lia].
  - intros k Hk.
    destruct (decide (k < next_id db + Z.of_nat (length body))); [lia|].
    rewrite Hold in Hk by lia. apply Hwf in Hk. lia.
  - intros Hnonneg. symmetry.
    apply max_with_zero_plus_one_nonneg; [apply next_priority_is_start|done].
  - apply reachable_start_priority.
Qed.

(** The theorem at a store holding priority 4 and a body of two features:
    they receive priorities 5 and 6 under ids 2 and 3. *)
Lemma create_features_bulk_sequential_witness :
  exists db',
    POST_features_bulk [sample_body "ui" ["open the page"] [];
                        sample_body "api" ["call it"; "read the answer"] []]
      (one_row_db 4)
    = (Return {| BulkCreateResponse.created := 2 |}, db')
    /\ Feature.priority <$> table db' !! 2 = Some 5
    /\ Feature.priority <$> table db' !! 3 = Some 6
    /\ 5 = max_with_zero_plus_one (one_row_db 4).
Proof.
  destruct (create_features_bulk_sequential (one_row_db 4)
              [sample_body "ui" ["open the page"] [];
               sample_body "api" ["call it"; "read the answer"] []] 5)
    as (db' & Hcall & Hnew & _ & _ & _ & Hmax & _).
  - apply wf_one_row_db.
  - discriminate.
  - repeat constructor.
  - apply (start_one_row_db 4).
  - exists db'. split; [exact Hcall|].
    split; [|split].
    + destruct (Hnew 0%nat _ eq_refl) as [_ H].
      change (next_id (one_row_db 4) + Z.of_nat 0) with 2 in H.
      rewrite H. reflexivity.
    + destruct (Hnew 1%nat _ eq_refl) as [_ H].
      change (next_id (one_row_db 4) + Z.of_nat 1) with 3 in H.
      rewrite H. reflexivity.
    + apply Hmax. intros i f Hf. unfold one_row_db in Hf; simpl in Hf.
      apply lookup_singleton_Some in Hf as [_ <-]. simpl. lia.
Defined.

(** ** Rejected input *)

(** C3, as worded, fails on a step that is the empty string:
    [steps: List[str] = Field(..., min_items=1)] bounds the number of steps
    and not their length, so the body is accepted and its record stored,
    by the single create and by the bulk create alike. *)
Lemma empty_step_is_stored :
  "" ∈ FeatureCreateBody.steps (sample_body "ui" [""] [])
  /\ (POST_features (sample_body "ui" [""] []) empty_db).1
     = Return {| FeatureResponse.id := 1;
                 FeatureResponse.priority := 1;
                 FeatureResponse.category := "ui";
                 FeatureResponse.name := "login form";
                 FeatureResponse.description := "the user can log in";
                 FeatureResponse.steps := [""];
                 FeatureResponse.passes := false |}
  /\ Feature.steps <$> table (POST_features (sample_body "ui" [""] []) empty_db).2 !! 1
     = Some [""]
  /\ (POST_features_bulk [sample_body "ui" [""] []] empty_db).1
     = Return {| BulkCreateResponse.created := 1 |}
  /\ Feature.steps
       <$> table (POST_features_bulk [sample_body "ui" [""] []] empty_db).2 !! 1
     = Some [""]
  /\ (POST_features (sample_body "ui" [""] []) empty_db).1
     <> Raise RequestValidationError
  /\ (POST_features_bulk [sample_body "ui" [""] []] empty_db).1
     <> Raise RequestValidationError.
Proof.
  split; [by left|].
  repeat split; try (vm_compute; reflexivity); vm_compute; discriminate.
Qed.

(** C3, amended. For every store: a single create whose category, name or
    description is empty, whose category is longer than 100 characters,
    whose name is longer than 255, or whose list of steps is empty, and a
    bulk create whose list is empty or holds such an item, raise the
    validation error and leave the store exactly as it was. *)
Theorem invalid_create_is_rejected (db : Database) (b : FeatureCreateBody)
    (bs : list FeatureCreateBody) :
  invalid_input b ->
  bs = [] \/ Exists invalid_input bs ->
  POST_features b db = (Raise RequestValidationError, db)
  /\ POST_features_bulk bs db = (Raise RequestValidationError, db).
Proof.
  intros Hb Hbs. split.
  - unfold POST_features, bind, lift. by rewrite parse_FeatureCreate_invalid.
  - unfold POST_features_bulk, bind, lift.
    destruct (parse_FeatureBulkCreate_cases bs) as [[_ ->]|(Hne & Hall & _)]; [done|].
    destruct Hbs as [->|Hex]; [done|].
    apply Exists_exists in Hex as (x & Hx & Hinv).
    rewrite Forall_forall in Hall. by destruct (Hall x Hx).
Qed.

(** The theorem at a body without steps, and at a batch whose second item
    has an empty category, on a store that holds one feature. *)
Lemma invalid_create_is_rejected_witness :
  POST_features (sample_body "ui" [] []) (one_row_db 1)
  = (Raise RequestValidationError, one_row_db 1)
  /\ POST_features_bulk [sample_body "ui" ["open the page"] [];
                         sample_body "" ["open the page"] []] (one_row_db 1)
     = (Raise RequestValidationError, one_row_db 1).
Proof.
  apply (invalid_create_is_rejected (one_row_db 1) (sample_body "ui" [] [])
           [sample_body "ui" ["open the page"] []; sample_body "" ["open the page"] []]).
  - unfold invalid_input. simpl. tauto.
  - right. apply Exists_cons_tl, Exists_cons_hd. unfold invalid_input. simpl. tauto.
Defined.

(** ** Created features do not pass *)

(** Validation reads the four declared keys of a body and nothing else. *)
Lemma parse_FeatureCreate_declared (b b' : FeatureCreateBody) :
  declared b = declared b' -> parse_FeatureCreate b = parse_FeatureCreate b'.
Proof.
  intros H. unfold parse_FeatureCreate, FeatureCreate_constraints.
  unfold declared in H. injection H as -> -> -> ->. done.
Qed.

(** C5. For every store and every body, with whatever further keys
    (["passes"], ["priority"], ...) the caller adds to it: a single create
    either raises and leaves the store as it was, or returns and stores,
    under the fresh id, a feature with [passes = false] whose priority is
    the start priority of the store; a bulk create either raises and
    leaves the store as it was, or returns the length of its list and
    stores its n-th input (from 0) under the n-th fresh id with that
    input's category, name, description and steps, the n-th priority from
    the start priority, and [passes = false], and every row of the store
    is then either a row that was there before or such a row. Two bodies with the same four
    declared keys have the same effect and answer: the schema has no key
    by which [passes] or [priority] could be supplied. *)
Theorem created_features_do_not_pass (db : Database)
    (b b' : FeatureCreateBody) (bs bs' : list FeatureCreateBody) :
  declared b = declared b' ->
  declared <$> bs = declared <$> bs' ->
  match POST_features b db with
  | (Return resp, db') =>
      FeatureResponse.passes resp = false
      /\ FeatureResponse.id resp = next_id db
      /\ is_start_priority db (FeatureResponse.priority resp)
      /\ exists row, table db' !! next_id db = Some row
           /\ Feature.passes row = false
           /\ resp = to_dict (next_id db, row)
  | (Raise _, db') => db' = db
  end
  /\ match POST_features_bulk bs db with
     | (Return resp, db') =>
         BulkCreateResponse.created resp = list_len bs
         /\ (forall (n : nat) b, bs !! n = Some b ->
               exists row start,
                 table db' !! (next_id db + Z.of_nat n) = Some row
                 /\ is_start_priority db start
                 /\ row = new_feature (start + Z.of_nat n) (declared b)
                 /\ Feature.passes row = false)
         /\ (forall k row, table db' !! k = Some row ->
               table db !! k = Some row
               \/ (next_id db <= k < next_id db + BulkCreateResponse.created resp
                   /\ Feature.passes row = false))
     | (Raise _, db') => db' = db
     end
  /\ POST_features b db = POST_features b' db
  /\ POST_features_bulk bs db = POST_features_bulk bs' db.
Proof.
  intros Hb Hbs.
  split; [|split; [|split]].
  - unfold POST_features, bind, lift.
    destruct (parse_FeatureCreate_cases b) as [[_ ->]|[_ ->]]; [done|].
    rewrite create_feature_spec. simpl.
    repeat split; [apply next_priority_is_start|].
    eexists. split; [apply lookup_insert_eq|]. done.
  - unfold POST_features_bulk, bind, lift.
    destruct (parse_FeatureBulkCreate_cases bs) as [[_ ->]|(_ & _ & ->)]; [done|].
    destruct (create_features_bulk_spec {| FeatureBulkCreate.features := declared <$> bs |} db)
      as (db' & -> & Hnext & Hnew & Hold).
    simpl in *.
    split; [unfold list_len; by rewrite length_fmap|].
    split.
    { intros n x Hx. exists (new_feature (next_priority db + Z.of_nat n) (declared x)),
        (next_priority db).
      split; [apply Hnew; by rewrite list_lookup_fmap, Hx|].
      split; [apply next_priority_is_start|done]. }
    intros k row Hk.
    destruct (decide (next_id db <= k < next_id db + list_len (declared <$> bs)))
      as [Hin|Hout].
    + right. split; [done|].
      assert (Hn : exists f, (declared <$> bs) !! Z.to_nat (k - next_id db) = Some f).
      { apply lookup_lt_is_Some_2. unfold list_len in Hin. lia. }
      destruct Hn as [f Hf]. specialize (Hnew _ _ Hf).
      replace (next_id db + Z.of_nat (Z.to_nat (k - next_id db))) with k in Hnew by lia.
      rewrite Hnew in Hk. by injection Hk as <-.
    + left. rewrite <- Hold; [done|lia].
  - unfold POST_features. by rewrite (parse_FeatureCreate_declared b b').
  - unfold POST_features_bulk, parse_FeatureBulkCreate, list_len.
    assert (Hlen : length bs = length bs').
    { by rewrite <- (length_fmap declared bs), Hbs, length_fmap. }
    assert (Hitems : parse_items bs = parse_items bs').
    { clear Hlen. revert bs' Hbs.
      induction bs as [|x bs IH]; intros [|x' bs'] H; try done.
      rewrite !fmap_cons in H.
      assert (Hx : declared x = declared x') by congruence.
      assert (Hrest : declared <$> bs = declared <$> bs') by congruence.
      simpl. by rewrite (IH bs' Hrest), (parse_FeatureCreate_declared x x'). }
    by rewrite Hlen, Hitems.
Qed.

(** The theorem at a body that tries to supply ["passes": true] and
    ["priority": 0]: the answer is that of the body without them, and the
    created feature has [passes = false] and priority 5 on a store whose
    largest priority is 4; so has the feature a bulk create stores for it
    under id 2. *)
Lemma created_features_do_not_pass_witness :
  (POST_features
     (sample_body "ui" ["open the page"] [("passes", JBool true); ("priority", JInt 0)])
     (one_row_db 4)).1
  = Return {| FeatureResponse.id := 2;
              FeatureResponse.priority := 5;
              FeatureResponse.category := "ui";
              FeatureResponse.name := "login form";
              FeatureResponse.description := "the user can log in";
              FeatureResponse.steps := ["open the page"];
              FeatureResponse.passes := false |}
  /\ POST_features
       (sample_body "ui" ["open the page"] [("passes", JBool true); ("priority", JInt 0)])
       (one_row_db 4)
     = POST_features (sample_body "ui" ["open the page"] []) (one_row_db 4)
  /\ POST_features_bulk
       [sample_body "ui" ["open the page"] [("passes", JBool true)]] (one_row_db 4)
     = POST_features_bulk [sample_body "ui" ["open the page"] []] (one_row_db 4)
  /\ exists db' row,
       POST_features_bulk
         [sample_body "ui" ["open the page"] [("passes", JBool true)]] (one_row_db 4)
       = (Return {| BulkCreateResponse.created := 1 |}, db')
       /\ table db' !! 2 = Some row
       /\ Feature.passes row = false
       /\ Feature.priority row = 5.
Proof.
  destruct (created_features_do_not_pass (one_row_db 4)
              (sample_body "ui" ["open the page"] [("passes", JBool true); ("priority", JInt 0)])
              (sample_body "ui" ["open the page"] [])
              [sample_body "ui" ["open the page"] [("passes", JBool true)]]
              [sample_body "ui" ["open the page"] []]
              eq_refl eq_refl) as (_ & Hstored & Hsingle & Hbulk).
  split; [vm_compute; reflexivity|]. split; [exact Hsingle|]. split; [exact Hbulk|].
  destruct (POST_features_bulk
              [sample_body "ui" ["open the page"] [("passes", JBool true)]] (one_row_db 4))
    as [[[created]|e] db'] eqn:Hcall.
  - destruct Hstored as (Hcreated & Hrows & _). simpl in Hcreated. subst created.
    destruct (Hrows 0%nat _ eq_refl) as (row & start & Hrow & Hstart & -> & Hpasses).
    change (next_id (one_row_db 4) + Z.of_nat 0) with 2 in Hrow.
    eexists db', _. split; [reflexivity|]. split; [exact Hrow|]. split; [exact Hpasses|].
    simpl. rewrite (is_start_priority_unique _ _ _ Hstart (start_one_row_db 4)). reflexivity.
  - vm_compute in Hcall. discriminate Hcall.
Defined.

(** ** A sample store of six features *)

Lemma six_db_pending_rows (r : Z * Feature) :
  r ∈ six_db_pending
  <-> table six_db !! r.1 = Some r.2 /\ matches (Some false) None r.2.
Proof.
  destruct r as [i f]. simpl.
  rewrite <- elem_of_map_to_list.
  set (rows := map_to_list _). vm_compute in (value of rows). subst rows.
  unfold six_db_pending, matches.
  rewrite !elem_of_cons, !elem_of_nil.
  split.
  - intros H. decompose [or] H; try done; simplify_eq; simpl; intuition done.
  - intros [H [Hp _]]. decompose [or] H; try done; simplify_eq; simpl in *;
      try discriminate; intuition done.
Qed.

(** The theorem at the six-feature store, filtered on [passes = false]:
    [limit=2], [offset=1] return the second and third pending rows (ids 4
    and 3) and [total = 5]. *)
Lemma list_features_window_witness :
  GET_features 2 1 (Some false) None six_db
  = (Return {| FeatureListResponse.features :=
                 [to_dict (4, sample_row 1 false); to_dict (3, sample_row 2 false)];
               FeatureListResponse.total := 5;
               FeatureListResponse.limit := 2;
               FeatureListResponse.offset := 1 |}, six_db).
Proof.
  apply (list_features_window six_db 2 1 (Some false) None six_db_pending).
  - lia.
  - lia.
  - unfold six_db_pending. repeat constructor; unfold by_priority_id; simpl; lia.
  - apply (NoDup_fmap_1 fst). unfold six_db_pending. simpl.
    repeat constructor; rewrite ?elem_of_cons, ?elem_of_nil; lia.
  - apply six_db_pending_rows.
Defined.

(* ===================================================================== *)
(** * The progress notifier *)
(* ===================================================================== *)

Section Notifier.

Variable env : Env.

Lemma load_cache_eq (w : World) :
  comparable_count (cache_file w) ->
  load_cache w
  = (Return (CountInt (cache_of (cache_file w)).1, (cache_of (cache_file w)).2), w).
Proof.
  intros Hcmp.
  unfold load_cache, bind, get, try_except, lift, ret, cache_of.
  destruct (cache_file w) as [[[[[n|]|] [[ids|]|]|]|]|]; try reflexivity.
  - by specialize (Hcmp _ eq_refl).
  - by specialize (Hcmp _ eq_refl).
Qed.


Lemma comparable_count_cache_text (count : Z) (ids : list Z) :
  comparable_count (Some (cache_text count ids)).
Proof. intros ids' H. discriminate H. Qed.

Lemma comparable_count_None : comparable_count None.
Proof. intros ids' H. discriminate H. Qed.

Lemma foldl_note_feature (previous : gset Z) (fs : list FeatureResponse) :
  forall acc,
    foldl (note_feature previous) acc fs
    = (acc.1 ++ (completed_entry
                   <$> filter (fun f => FeatureResponse.id f ∉ previous) fs),
       acc.2 ++ (FeatureResponse.id <$> fs)).
Proof.
  induction fs as [|f fs IH]; intros [completed current]; simpl.
  - by rewrite !app_nil_r.
  - rewrite IH. unfold note_feature. rewrite filter_cons.
    destruct (decide (FeatureResponse.id f ∉ previous)); simpl;
      by rewrite <- ?app_assoc.
Qed.

Lemma fetch_passing_eq (previous : gset Z) (w : World) :
  exists w',
    fetch_passing env previous w
    = (Return (completed_entry
                 <$> filter (fun f => FeatureResponse.id f ∉ previous)
                            (currently_passing env),
               FeatureResponse.id <$> currently_passing env), w')
    /\ cache_file w' = cache_file w
    /\ posted w' = posted w
    /\ delivered w' = delivered w
    /\ console w'
       = console w ++ match api env features_passing_1000 with
                      | Return _ => []
                      | Raise e => [api_error_getting_features e]
                      end.
Proof.
  unfold fetch_passing, try_except, bind, _api_get, lift, currently_passing.
  destruct (api env features_passing_1000) as [data|e].
  - exists w. unfold ret. rewrite foldl_note_feature. simpl.
    by rewrite app_nil_r.
  - eexists. unfold print, ret. simpl. done.
Qed.

Lemma payload_percentage_eq (passing total : Z) (w : World) :
  payload_percentage passing total w
  = (Return (if 0 <? total then Float (spec_percentage passing total) else Int 0), w).
Proof.
  unfold payload_percentage, spec_percentage, bind, lift, ret, PyFloat.truediv.
  destruct (0 <? total) eqn:Hpos; [|done].
  apply Z.ltb_lt in Hpos.
  destruct (total =? 0) eqn:Hz; [apply Z.eqb_eq in Hz; lia|done].
Qed.

(** The delivery never raises: a failure is printed. *)
Lemma deliver_eq (body : list Payload) (w : World) :
  exists w',
    try_except (urlopen_post env body)
               (fun e => print (webhook_notification_failed e)) w
    = (Return tt, w')
    /\ cache_file w' = cache_file w
    /\ posted w' = posted w ++ [body]
    /\ delivered w' = (if sink_accepts env then delivered w ++ [body] else delivered w)
    /\ console w'
       = console w ++ (if sink_accepts env then []
                       else [webhook_notification_failed URLError]).
Proof.
  unfold try_except, urlopen_post, print.
  destruct (sink_accepts env); eexists; simpl; (split; [reflexivity|]); simpl;
    by rewrite ?app_nil_r.
Qed.

(** The notifier when the count has grown (section 4.4, step 3). *)
Lemma send_progress_webhook_progress (passing total : Z) (w : World) :
  configured env ->
  comparable_count (cache_file w) ->
  (cache_of (cache_file w)).1 < passing ->
  exists w',
    send_progress_webhook env passing total w = (Return tt, w')
    /\ cache_file w'
       = Some (cache_text passing (FeatureResponse.id <$> currently_passing env))
    /\ posted w' = posted w ++ [[notification env passing total (cache_file w)]]
    /\ delivered w'
       = (if sink_accepts env
          then delivered w ++ [[notification env passing total (cache_file w)]]
          else delivered w)
    /\ console w'
       = console w
         ++ match api env features_passing_1000 with
            | Return _ => []
            | Raise e => [api_error_getting_features e]
            end
         ++ (if sink_accepts env then [] else [webhook_notification_failed URLError]).
Proof.
  intros (url & Hurl & Hne) Hcmp Hlt.
  unfold send_progress_webhook. rewrite Hurl.
  destruct url as [|a url]; [done|].
  unfold bind at 1. rewrite (load_cache_eq _ Hcmp). cbn [fst snd].
  apply Z.ltb_lt in Hlt. rewrite Hlt.
  unfold bind at 1.
  destruct (fetch_passing_eq (cache_of (cache_file w)).2 w)
    as (w1 & -> & Hc1 & Hp1 & Hd1 & Hl1).
  unfold bind at 1. rewrite payload_percentage_eq.
  unfold bind at 1.
  set (payload := {| Payload.event := "test_progress" |}).
  destruct (deliver_eq [payload] w1) as (w2 & -> & Hc2 & Hp2 & Hd2 & Hl2).
  eexists. split; [reflexivity|].
  unfold write_text, cache_text. simpl.
  rewrite Hp2, Hd2, Hl2, Hp1, Hd1, Hl1.
  repeat split; try done.
  by rewrite app_assoc.
Qed.

(** The notifier when the count has not grown and a cache file exists
    (section 4.4, step 5): nothing is sent, nothing is written. *)
Lemma send_progress_webhook_no_progress (passing total : Z) (w : World) :
  is_Some (cache_file w) ->
  comparable_count (cache_file w) ->
  passing <= (cache_of (cache_file w)).1 ->
  send_progress_webhook env passing total w = (Return tt, w).
Proof.
  intros [text Htext] Hcmp Hle.
  unfold send_progress_webhook.
  destruct (WEBHOOK_URL env) as [[|a url]|]; try done.
  unfold bind at 1. rewrite (load_cache_eq _ Hcmp). cbn [fst snd].
  apply Z.ltb_ge in Hle. rewrite Hle.
  unfold bind, get. by rewrite Htext.
Qed.

End Notifier.

(** The ids of the features that are not among [previous] are the listed
    ids that are not among [previous]. *)
Lemma ids_of_new_features (previous : gset Z) (fs : list FeatureResponse) :
  FeatureResponse.id <$> filter (fun f => FeatureResponse.id f ∉ previous) fs
  = filter (fun i => i ∉ previous) (FeatureResponse.id <$> fs).
Proof.
  induction fs as [|f fs IH]; [done|].
  rewrite fmap_cons, !filter_cons.
  destruct (decide (FeatureResponse.id f ∉ previous)); by rewrite ?fmap_cons, IH.
Qed.

(** Among features whose ids are 1, 2 and 5 in some order, exactly one is
    not among the cached ids 1 and 2: the one with id 5. *)
Lemma only_feature_5_is_new (fs : list FeatureResponse) :
  FeatureResponse.id <$> fs ≡ₚ [1; 2; 5] ->
  exists f5, f5 ∈ fs /\ FeatureResponse.id f5 = 5
    /\ filter (fun f => FeatureResponse.id f ∉ (list_to_set [1; 2] : gset Z)) fs = [f5].
Proof.
  intros Hperm.
  assert (Hids : FeatureResponse.id
                   <$> filter (fun f => FeatureResponse.id f ∉ (list_to_set [1; 2] : gset Z)) fs
                 = [5]).
  { rewrite ids_of_new_features.
    apply Permutation_singleton_r. rewrite Hperm.
    vm_compute. reflexivity. }
  apply fmap_cons_inv in Hids as (f5 & rest & Hid & Hrest & Hfilter).
  symmetry in Hrest. apply fmap_nil_inv in Hrest. subst rest.
  exists f5. split; [|split; [done|exact Hfilter]].
  assert (Hin : f5 ∈ filter (fun f => FeatureResponse.id f ∉ (list_to_set [1; 2] : gset Z)) fs)
    by (rewrite Hfilter; left).
  by apply list_elem_of_filter in Hin as [_ ?].
Qed.

(** ** The API as served from a store *)

(** The ids of the passing rows, without repetition. *)
Lemma NoDup_passing_ids (db : Database) :
  NoDup (filter_passes true (query db)).*1.
Proof.
  apply (sublist_NoDup _ (query db).*1); [apply NoDup_fst_map_to_list|].
  apply fmap_sublist, sublist_filter.
Qed.

(** With at most 1000 passing features, the listing the notifier asks for
    names exactly the passing features of the store, each once. *)
Lemma serve_lists_passing (db : Database) :
  passing_count db <= 1000 ->
  exists data,
    serve (Some db) features_passing_1000 = Return (ListJson data)
    /\ FeatureListResponse.total data = passing_count db
    /\ NoDup (FeatureResponse.id <$> FeatureListResponse.features data)
    /\ forall i, i ∈ FeatureResponse.id <$> FeatureListResponse.features data
                 <-> exists f, table db !! i = Some f /\ Feature.passes f = true.
Proof.
  intros Hcount. eexists. split; [reflexivity|]. simpl.
  unfold offset_limit. rewrite drop_0.
  set (rows := filter_passes true (query db)).
  assert (Hlen : count rows = passing_count db) by apply count_filter_passes.
  split; [done|].
  assert (Hall : take (Z.to_nat 1000) (order_by_priority_id rows)
                 = order_by_priority_id rows).
  { apply take_ge. rewrite order_by_priority_id_perm. unfold count in Hlen. lia. }
  rewrite Hall.
  assert (Hids : FeatureResponse.id <$> (to_dict <$> order_by_priority_id rows)
                 ≡ₚ rows.*1).
  { rewrite <- list_fmap_compose. by rewrite order_by_priority_id_perm. }
  split.
  - rewrite Hids. apply NoDup_passing_ids.
  - intros i. rewrite Hids, list_elem_of_fmap. split.
    + intros ([j f] & -> & Hr). apply elem_of_filter_passes in Hr. by exists f.
    + intros (f & Hf & Hp). exists (i, f). split; [done|].
      by apply elem_of_filter_passes.
Qed.

(** From a store whose passing features are those of ids 1, 2 and 5, the
    API lists three features, of ids 1, 2 and 5 in some order. *)
Lemma serve_lists_1_2_5 (db : Database) :
  (forall i, (exists f, table db !! i = Some f /\ Feature.passes f = true)
             <-> i ∈ [1; 2; 5]) ->
  exists data,
    serve (Some db) features_passing_1000 = Return (ListJson data)
    /\ FeatureResponse.id <$> FeatureListResponse.features data ≡ₚ [1; 2; 5].
Proof.
  intros Hpassing.
  assert (Hrows : (filter_passes true (query db)).*1 ≡ₚ [1; 2; 5]).
  { apply NoDup_Permutation; [apply NoDup_passing_ids| |].
    - repeat constructor; rewrite ?elem_of_cons, ?elem_of_nil; lia.
    - intros i. rewrite <- Hpassing, list_elem_of_fmap. split.
      + intros ([j f] & -> & Hr). apply elem_of_filter_passes in Hr. by exists f.
      + intros (f & Hf & Hp). exists (i, f). split; [done|].
        by apply elem_of_filter_passes. }
  destruct (serve_lists_passing db) as (data & Hserve & _ & Hnodup & Hmem).
  { unfold passing_count. rewrite <- count_filter_passes. unfold count.
    rewrite <- (length_fmap fst), Hrows. simpl. lia. }
  exists data. split; [done|].
  apply NoDup_Permutation; [done| |].
  - repeat constructor; rewrite ?elem_of_cons, ?elem_of_nil; lia.
  - intros i. by rewrite Hmem, Hpassing.
Qed.

(** C1. With the webhook configured, the cache file holding
    [{count: 2, passing_ids: [1, 2]}] and the API listing as passing three
    features whose ids are 1, 2 and 5: a call with [passing = 3] returns
    normally, sends exactly one notification, whose [completed_tests] has
    one entry, that of feature 5, and rewrites the cache file to
    [{count: 3, passing_ids: ids}], [ids] being the listed ids ([1, 2, 5]
    when the API lists them in that order); after it, a further call with
    [passing = 3] sends nothing and changes nothing, whatever its
    surroundings. *)
Theorem one_notification_for_new_feature (env : Env) (total : Z) (w : World)
    (data : FeatureListResponse) :
  configured env ->
  cache_file w = Some (cache_text 2 [1; 2]) ->
  api env features_passing_1000 = Return (ListJson data) ->
  FeatureResponse.id <$> FeatureListResponse.features data ≡ₚ [1; 2; 5] ->
  exists w' payload f5,
    send_progress_webhook env 3 total w = (Return tt, w')
    /\ posted w' = posted w ++ [[payload]]
    /\ f5 ∈ FeatureListResponse.features data
    /\ FeatureResponse.id f5 = 5
    /\ Payload.completed_tests payload = [completed_entry f5]
    /\ Payload.passing payload = 3
    /\ Payload.previous_passing payload = 2
    /\ cache_file w'
       = Some (cache_text 3 (FeatureResponse.id <$> FeatureListResponse.features data))
    /\ (forall env' total',
          send_progress_webhook env' 3 total' w' = (Return tt, w')).
Proof.
  intros Hconf Hcache Hapi Hids.
  destruct (send_progress_webhook_progress env 3 total w Hconf)
    as (w' & Hcall & Hfile & Hposted & _ & _).
  { rewrite Hcache. apply comparable_count_cache_text. }
  { rewrite Hcache. simpl. lia. }
  destruct (only_feature_5_is_new _ Hids) as (f5 & Hin & Hid5 & Hfilter).
  assert (Hcur : currently_passing env = FeatureListResponse.features data).
  { unfold currently_passing. by rewrite Hapi. }
  rewrite Hcur in Hfile.
  exists w', (notification env 3 total (cache_file w)), f5.
  repeat split; try done.
  - unfold notification. cbn [Payload.completed_tests]. rewrite Hcache, Hcur.
    change (cache_of (Some (cache_text 2 [1; 2]))).2 with (list_to_set [1; 2] : gset Z).
    by rewrite Hfilter.
  - by rewrite Hcache.
  - intros env' total'. apply send_progress_webhook_no_progress.
    + by rewrite Hfile.
    + rewrite Hfile. apply comparable_count_cache_text.
    + rewrite Hfile. simpl. lia.
Qed.

(** The theorem with the API serving the five-feature store (it lists ids
    1, 2, 5 in that order) and the sink down: one request, naming feature 5
    only, and the cache file holds [{count: 3, passing_ids: [1, 2, 5]}]. *)
Lemma one_notification_for_new_feature_witness :
  exists w' payload,
    send_progress_webhook (sample_env (Some progress_db) false) 3 4
      (sample_world (Some (cache_text 2 [1; 2])))
    = (Return tt, w')
    /\ posted w' = [[payload]]
    /\ Payload.completed_tests payload = ["[ui] the user can log in"]
    /\ cache_file w' = Some (cache_text 3 [1; 2; 5])
    /\ send_progress_webhook (sample_env (Some progress_db) false) 3 4 w'
       = (Return tt, w').
Proof.
  destruct (one_notification_for_new_feature
              (sample_env (Some progress_db) false) 4
              (sample_world (Some (cache_text 2 [1; 2]))) progress_listing)
    as (w' & payload & f5 & Hcall & Hposted & Hin & Hid & Hcompleted & _ & _ & Hfile & Hagain).
  - exists "http://localhost:5678/webhook". split; [reflexivity|discriminate].
  - reflexivity.
  - reflexivity.
  - reflexivity.
  - exists w', payload. split; [exact Hcall|]. split; [exact Hposted|].
    split; [|split; [exact Hfile|apply Hagain]].
    rewrite Hcompleted.
    simpl in Hin. rewrite !elem_of_cons, elem_of_nil in Hin.
    destruct Hin as [->|[->|[->|[]]]]; simpl in Hid; try discriminate.
    reflexivity.
Defined.

(** C8. In every call in which a notification is attempted (the webhook
    is configured, the cached count is one [passing] can be compared with,
    and [passing] exceeds it), whether the sink
    accepts the request or not: the call returns normally, the request was
    made once, and the cache file holds [{count: passing, passing_ids:
    current_passing_ids}], the ids the API listed (none when that request
    failed). When the sink does not accept it, nothing is delivered and the
    failure is printed on the console. *)
Theorem delivery_failure_is_not_raised (env : Env) (passing total : Z) (w : World) :
  configured env ->
  comparable_count (cache_file w) ->
  (cache_of (cache_file w)).1 < passing ->
  exists w',
    send_progress_webhook env passing total w = (Return tt, w')
    /\ cache_file w'
       = Some (cache_text passing (FeatureResponse.id <$> currently_passing env))
    /\ posted w' = posted w ++ [[notification env passing total (cache_file w)]]
    /\ (sink_accepts env = true ->
          delivered w' = delivered w ++ [[notification env passing total (cache_file w)]])
    /\ (sink_accepts env = false ->
          delivered w' = delivered w
          /\ webhook_notification_failed URLError ∈ console w').
Proof.
  intros Hconf Hcmp Hlt.
  destruct (send_progress_webhook_progress env passing total w Hconf Hcmp Hlt)
    as (w' & Hcall & Hfile & Hposted & Hdelivered & Hconsole).
  exists w'. split; [done|]. split; [done|]. split; [done|]. split.
  - intros Hs. by rewrite Hs in Hdelivered.
  - intros Hs. rewrite Hs in Hdelivered, Hconsole. split; [done|].
    rewrite Hconsole, !elem_of_app. right. right. left.
Qed.

(** The theorem with the sink down and with the sink up, from the cache
    [{count: 2, passing_ids: [1, 2]}]: both calls return normally and leave
    the same cache file, [{count: 3, passing_ids: [1, 2, 5]}]. *)
Lemma delivery_failure_is_not_raised_witness :
  exists w_down w_up,
    send_progress_webhook (sample_env (Some progress_db) false) 3 4
      (sample_world (Some (cache_text 2 [1; 2])))
    = (Return tt, w_down)
    /\ send_progress_webhook (sample_env (Some progress_db) true) 3 4
         (sample_world (Some (cache_text 2 [1; 2])))
       = (Return tt, w_up)
    /\ cache_file w_down = Some (cache_text 3 [1; 2; 5])
    /\ cache_file w_up = Some (cache_text 3 [1; 2; 5])
    /\ delivered w_down = [].
Proof.
  destruct (delivery_failure_is_not_raised
              (sample_env (Some progress_db) false) 3 4
              (sample_world (Some (cache_text 2 [1; 2]))))
    as (w_down & Hcall1 & Hfile1 & _ & _ & Hdown).
  { exists "http://localhost:5678/webhook". split; [reflexivity|discriminate]. }
  { intros ids H; discriminate H. }
  { simpl. lia. }
  destruct (delivery_failure_is_not_raised
              (sample_env (Some progress_db) true) 3 4
              (sample_world (Some (cache_text 2 [1; 2]))))
    as (w_up & Hcall2 & Hfile2 & _ & _ & _).
  { exists "http://localhost:5678/webhook". split; [reflexivity|discriminate]. }
  { intros ids H; discriminate H. }
  { simpl. lia. }
  exists w_down, w_up.
  split; [exact Hcall1|]. split; [exact Hcall2|].
  split; [exact Hfile1|]. split; [exact Hfile2|].
  destruct (Hdown eq_refl) as [Hd _]. exact Hd.
Defined.

(** C10. When the webhook is configured, [passing] exceeds the cached
    count (one it can be compared with), and the request for the currently passing features raises: the
    call returns normally, the error is printed, one notification is sent
    with an empty [completed_tests], and the cache file is overwritten with
    [{count: passing, passing_ids: []}], whatever ids it held. *)
Theorem api_failure_empties_cached_ids (env : Env) (passing total : Z) (w : World)
    (e : exn) :
  configured env ->
  comparable_count (cache_file w) ->
  (cache_of (cache_file w)).1 < passing ->
  api env features_passing_1000 = Raise e ->
  exists w' payload,
    send_progress_webhook env passing total w = (Return tt, w')
    /\ posted w' = posted w ++ [[payload]]
    /\ Payload.completed_tests payload = []
    /\ Payload.passing payload = passing
    /\ Payload.tests_completed_this_session payload
       = passing - (cache_of (cache_file w)).1
    /\ cache_file w' = Some (cache_text passing [])
    /\ api_error_getting_features e ∈ console w'.
Proof.
  intros Hconf Hcmp Hlt Hapi.
  destruct (send_progress_webhook_progress env passing total w Hconf Hcmp Hlt)
    as (w' & Hcall & Hfile & Hposted & _ & Hconsole).
  assert (Hcur : currently_passing env = []).
  { unfold currently_passing. by rewrite Hapi. }
  rewrite Hcur in Hfile. rewrite Hapi in Hconsole.
  exists w', (notification env passing total (cache_file w)).
  repeat split; try done.
  - unfold notification. cbn [Payload.completed_tests]. by rewrite Hcur.
  - rewrite Hconsole, !elem_of_app. right. left. left.
Qed.

(** The theorem with the API unreachable and the cache
    [{count: 2, passing_ids: [1, 2]}]: the cache file becomes
    [{count: 3, passing_ids: []}]. *)
Lemma api_failure_empties_cached_ids_witness :
  exists w' payload,
    send_progress_webhook (sample_env None true) 3 4
      (sample_world (Some (cache_text 2 [1; 2])))
    = (Return tt, w')
    /\ posted w' = [[payload]]
    /\ Payload.completed_tests payload = []
    /\ cache_file w' = Some (cache_text 3 []).
Proof.
  destruct (api_failure_empties_cached_ids (sample_env None true) 3 4
              (sample_world (Some (cache_text 2 [1; 2]))) URLError)
    as (w' & payload & Hcall & Hposted & Hcompleted & _ & _ & Hfile & _).
  - exists "http://localhost:5678/webhook". split; [reflexivity|discriminate].
  - intros ids H; discriminate H.
  - simpl. lia.
  - reflexivity.
  - exists w', payload. repeat split; assumption.
Defined.

(* ===================================================================== *)
(** * Worked examples *)
(* ===================================================================== *)

(** In the six-feature store the next pending feature is the one of id 2:
    priority 1 is shared with id 4, and the id breaks the tie. *)
Example next_feature_of_six_db :
  (get_next_feature six_db).1 = Return (to_dict (2, sample_row 1 false)).
Proof. vm_compute. reflexivity. Qed.

(** Once feature 2 is deleted, it is the one of id 4. *)
Example next_feature_after_delete :
  (get_next_feature (delete_feature 2 six_db).2).1
  = Return (to_dict (4, sample_row 1 false)).
Proof. vm_compute. reflexivity. Qed.

(** One passing feature out of six: 16.7 (the double 4700632111067955 * 2^-48). *)
Example stats_of_six_db :
  (get_stats six_db).1
  = Return {| StatsResponse.passing := 1;
              StatsResponse.total := 6;
              StatsResponse.percentage := S754_finite false 4700632111067955 (-48) |}.
Proof. vm_compute. reflexivity. Qed.

Example stats_of_empty_db :
  (get_stats empty_db).1
  = Return {| StatsResponse.passing := 0;
              StatsResponse.total := 0;
              StatsResponse.percentage := S754_zero false |}.
Proof. vm_compute. reflexivity. Qed.

(** 1 of 8 is 12.5 exactly; 1 of 2000 is the double next to 0.05, which lies
    above the tie and rounds to 0.1 (7205759403792794 * 2^-56). *)
Example percentage_one_of_eight :
  spec_percentage 1 8 = S754_finite false 7036874417766400 (-49).
Proof. vm_compute. reflexivity. Qed.

Example percentage_one_of_2000 :
  spec_percentage 1 2000 = S754_finite false 7205759403792794 (-56).
Proof. vm_compute. reflexivity. Qed.

(** An update of an absent id, and a delete of one, are refused. *)
Example update_absent_id :
  update_feature 9 {| FeatureUpdate.passes := true |} six_db
  = (Raise (HTTPException 404 "Feature not found"), six_db).
Proof. reflexivity. Qed.

Example delete_absent_id :
  delete_feature 9 six_db = (Raise (HTTPException 404 "Feature not found"), six_db).
Proof. reflexivity. Qed.

(** A list call outside the bounds of [limit] is refused. *)
Example list_limit_out_of_bounds :
  (GET_features 1001 0 None None six_db).1 = Raise RequestValidationError
  /\ (GET_features 0 0 None None six_db).1 = Raise RequestValidationError
  /\ (GET_features 1 (-1) None None six_db).1 = Raise RequestValidationError.
Proof. repeat split; reflexivity. Qed.

(** The five-feature store as the API lists its passing features. *)
Example progress_db_served :
  serve (Some progress_db) features_passing_1000 = Return (ListJson progress_listing).
Proof. vm_compute. reflexivity. Qed.

(** Without a webhook URL the notifier does nothing. *)
Example notifier_not_configured :
  send_progress_webhook
    {| WEBHOOK_URL := None; api := serve (Some progress_db); sink_accepts := true;
       utcnow_isoformat := "2024-05-01T12:00:00"; project_dir_name := "demo" |}
    3 5 (sample_world None)
  = (Return tt, sample_world None).
Proof. reflexivity. Qed.

(** First run with no progress to report: the baseline is written and
    nothing is sent. *)
Example notifier_baseline :
  send_progress_webhook (sample_env (Some (one_row_db 1)) true) 0 1 (sample_world None)
  = (Return tt,
     {| cache_file := Some (cache_text 0 []);
        posted := []; delivered := []; console := [] |}).
Proof. vm_compute. reflexivity. Qed.

(** A corrupt cache file is read as [{0, ∅}]. *)
Example corrupt_cache_is_empty :
  load_cache (sample_world (Some Garbage))
  = (Return (CountInt 0, ∅), sample_world (Some Garbage))
  /\ cache_of (Some (JsonText JNotObject)) = (0, ∅)
  /\ cache_of (Some (JsonText (JObject (Some (CountInt 7)) (Some NotIterable)))) = (0, ∅).
Proof. repeat split; reflexivity. Qed.

(** A request without ["steps"], one whose ["name"] is not a string, and
    one that is not an object are refused; the store stays as it was. *)
Example malformed_requests_are_refused :
  request_POST_features
    (Typed {| FeatureCreateJson.category := Typed "ui";
              FeatureCreateJson.name := Typed "login form";
              FeatureCreateJson.description := Typed "the user can log in";
              FeatureCreateJson.steps := Absent;
              FeatureCreateJson.extra := [] |}) (one_row_db 1)
  = (Raise RequestValidationError, one_row_db 1)
  /\ request_POST_features
       (Typed {| FeatureCreateJson.category := Typed "ui";
                 FeatureCreateJson.name := Mistyped;
                 FeatureCreateJson.description := Typed "the user can log in";
                 FeatureCreateJson.steps := Typed ["open the page"];
                 FeatureCreateJson.extra := [] |}) (one_row_db 1)
     = (Raise RequestValidationError, one_row_db 1)
  /\ request_POST_features Mistyped (one_row_db 1)
     = (Raise RequestValidationError, one_row_db 1)
  /\ request_POST_features_bulk
       (Typed {| FeatureBulkCreateJson.features :=
                   Typed [json_of (sample_body "ui" ["open the page"] []); Mistyped] |})
       (one_row_db 1)
     = (Raise RequestValidationError, one_row_db 1)
  /\ (request_POST_features (json_of (sample_body "ui" ["open the page"] []))
        (one_row_db 1)).1
     = (POST_features (sample_body "ui" ["open the page"] []) (one_row_db 1)).1.
Proof. repeat split; reflexivity. Qed.

(** A cache file whose ["count"] is null, next to a list of ids: the
    comparison of line 79 raises, and nothing is sent or written. With a
    ["passing_ids"] that cannot be read the handler of line 75 has reset
    the count to 0 before, and the call goes through. *)
Example null_count_raises :
  send_progress_webhook (sample_env (Some progress_db) true) 3 5
    (sample_world (Some (JsonText (JObject (Some CountOther) (Some (IdList [1; 2]))))))
  = (Raise TypeError,
     sample_world (Some (JsonText (JObject (Some CountOther) (Some (IdList [1; 2]))))))
  /\ (send_progress_webhook (sample_env (Some progress_db) true) 3 5
        (sample_world (Some (JsonText (JObject (Some CountOther) (Some NotIterable)))))).1
     = Return tt.
Proof. split; vm_compute; reflexivity. Qed.

(* ===================================================================== *)
(** * Further properties of the handlers *)
(* ===================================================================== *)

(** ** The handlers as equations *)

Lemma get_next_feature_eq (db : Database) :
  get_next_feature db
  = (match head (pending_queue db) with
     | Some r => Return (to_dict r)
     | None => Raise nothing_pending
     end, db).
Proof.
  unfold get_next_feature, bind, get, first, pending_queue. simpl.
  by destruct (head _).
Qed.

Lemma GET_features_eq (limit offset : Z) (passes : option bool)
    (category : option string) (db : Database) :
  1 <= limit <= 1000 -> 0 <= offset ->
  GET_features limit offset passes category db
  = (Return {| FeatureListResponse.features :=
                 to_dict <$> take (Z.to_nat limit)
                                  (drop (Z.to_nat offset)
                                        (order_by_priority_id (selected db passes category)));
               FeatureListResponse.total :=
                 Z.of_nat (length (selected db passes category));
               FeatureListResponse.limit := limit;
               FeatureListResponse.offset := offset |}, db).
Proof.
  intros Hl Ho. unfold GET_features, list_query_constraints.
  replace ((1 <=? limit) && (limit <=? 1000) && (0 <=? offset)) with true
    by (symmetry; rewrite !andb_true_iff, !Z.leb_le; lia).
  reflexivity.
Qed.

Lemma get_stats_eq (db : Database) :
  get_stats db
  = (Return {| StatsResponse.passing := passing_count db;
               StatsResponse.total := total_count db;
               StatsResponse.percentage :=
                 spec_percentage (passing_count db) (total_count db) |}, db).
Proof.
  unfold get_stats, bind, get, ret, lift. simpl.
  rewrite count_query, count_filter_passes.
  fold (total_count db) (passing_count db).
  unfold spec_percentage, PyFloat.truediv.
  destruct (0 <? total_count db) eqn:Hpos; [|done].
  apply Z.ltb_lt in Hpos.
  destruct (total_count db =? 0) eqn:Hz; [apply Z.eqb_eq in Hz; lia|done].
Qed.

Lemma get_feature_eq (feature_id : Z) (db : Database) :
  get_feature feature_id db
  = (match table db !! feature_id with
     | Some f => Return (to_dict (feature_id, f))
     | None => Raise not_found
     end, db).
Proof. unfold get_feature, bind, get. simpl. by destruct (table db !! feature_id). Qed.

(** ** Sorted lists of rows of one store *)

(** Two sorted, duplicate-free lists of rows of one store with the same
    members are the same list. *)
Lemma rows_sorted_unique (db : Database) (l1 l2 : list (Z * Feature)) :
  (forall r, r ∈ l1 -> stored db r) ->
  StronglySorted by_priority_id l1 -> StronglySorted by_priority_id l2 ->
  NoDup l1 -> NoDup l2 ->
  (forall r, r ∈ l1 <-> r ∈ l2) ->
  l1 = l2.
Proof.
  intros Hstored Hs1 Hs2 Hn1 Hn2 Hmem.
  apply (StronglySorted_unique_strong by_priority_id); try done.
  - intros x1 x2 H1 H2. apply (by_priority_id_antisym db).
    + by apply Hstored.
    + apply Hstored. by apply Hmem.
  - by apply NoDup_Permutation.
Qed.

Lemma elem_of_pending_queue (db : Database) (r : Z * Feature) :
  r ∈ pending_queue db <-> stored db r /\ Feature.passes r.2 = false.
Proof.
  unfold pending_queue. rewrite order_by_priority_id_perm.
  apply elem_of_filter_passes.
Qed.

Lemma NoDup_pending_queue (db : Database) : NoDup (pending_queue db).
Proof.
  unfold pending_queue, filter_passes. rewrite order_by_priority_id_perm.
  apply NoDup_filter, NoDup_query.
Qed.

Lemma sorted_pending_queue (db : Database) :
  StronglySorted by_priority_id (pending_queue db).
Proof. apply order_by_priority_id_sorted. Qed.

Lemma elem_of_all_rows (db : Database) (r : Z * Feature) :
  r ∈ all_rows db <-> stored db r.
Proof. unfold all_rows. rewrite order_by_priority_id_perm. apply elem_of_query. Qed.

Lemma NoDup_all_rows (db : Database) : NoDup (all_rows db).
Proof. unfold all_rows. rewrite order_by_priority_id_perm. apply NoDup_query. Qed.

(** The ids of a duplicate-free list of rows of one store are distinct. *)
Lemma stored_ids_NoDup (db : Database) (l : list (Z * Feature)) :
  (forall r, r ∈ l -> stored db r) -> NoDup l -> NoDup l.*1.
Proof.
  intros Hstored Hnodup. apply NoDup_fmap_2_strong; [|done].
  intros [i f] [j g] Hi Hj Heq. simpl in Heq. subst j.
  apply Hstored in Hi, Hj. unfold stored in *. simpl in *. congruence.
Qed.

(** Every stored priority is below the next priority. *)
Lemma next_priority_above (db : Database) (r : Z * Feature) :
  stored db r -> Feature.priority r.2 < next_priority db.
Proof.
  destruct r as [j g]. unfold stored. simpl. intros Hg.
  destruct (next_priority_is_start db) as [[He _]|(i & f & Hf & -> & Hmax)].
  - rewrite He, lookup_empty in Hg. done.
  - specialize (Hmax j g Hg). lia.
Qed.

Lemma StronglySorted_filter {A} (R : relation A) (P : A -> Prop)
    `{!forall x, Decision (P x)} (l : list A) :
  StronglySorted R l -> StronglySorted R (filter P l).
Proof.
  induction 1 as [|x l Hl IH Hx]; [constructor|].
  rewrite filter_cons. destruct (decide (P x)); [|done].
  constructor; [done|].
  rewrite Forall_forall in Hx |- *. intros y Hy.
  apply list_elem_of_filter in Hy as [_ Hy]. by apply Hx.
Qed.

(** Rows that all come after the rows of [old] are listed after them. *)
Lemma rows_append (db' : Database) (l old new : list (Z * Feature)) :
  (forall r, r ∈ l -> stored db' r) ->
  StronglySorted by_priority_id l -> NoDup l ->
  StronglySorted by_priority_id old -> NoDup old ->
  StronglySorted by_priority_id new -> NoDup new ->
  (forall x1 x2, x1 ∈ old -> x2 ∈ new ->
     Feature.priority x1.2 < Feature.priority x2.2) ->
  (forall r, r ∈ l <-> r ∈ old \/ r ∈ new) ->
  l = old ++ new.
Proof.
  intros Hstored Hsl Hnl Hso Hno Hsn Hnn Hlt Hmem.
  apply (rows_sorted_unique db'); try done.
  - apply StronglySorted_app_2; [|done..].
    intros x1 x2 H1 H2. left. by apply Hlt.
  - apply NoDup_app. split; [done|]. split; [|done].
    intros x Hx Hx'. specialize (Hlt x x Hx Hx'). lia.
  - intros r. by rewrite Hmem, elem_of_app.
Qed.

(** The rows a create adds: their shape, order and distinctness. *)
Lemma elem_of_created_rows first_id start features (r : Z * Feature) :
  r ∈ created_rows first_id start features
  <-> exists (n : nat) f, features !! n = Some f
        /\ r = (first_id + Z.of_nat n, new_feature (start + Z.of_nat n) f).
Proof.
  unfold created_rows. rewrite elem_of_lookup_imap. split.
  - intros (n & f & -> & Hn). by exists n, f.
  - intros (n & f & Hn & ->). by exists n, f.
Qed.

Lemma created_rows_cons first_id start f features :
  created_rows first_id start (f :: features)
  = (first_id, new_feature start f)
      :: created_rows (first_id + 1) (start + 1) features.
Proof.
  unfold created_rows. rewrite imap_cons. f_equal.
  - f_equal; [lia|f_equal; lia].
  - apply imap_ext. intros n x _. simpl. f_equal; [lia|f_equal; lia].
Qed.

Lemma created_rows_sorted first_id start features :
  StronglySorted by_priority_id (created_rows first_id start features)
  /\ NoDup (created_rows first_id start features).
Proof.
  revert first_id start.
  induction features as [|f features IH]; intros first_id start.
  - split; constructor.
  - rewrite created_rows_cons.
    destruct (IH (first_id + 1) (start + 1)) as [Hs Hn].
    split; constructor; try done.
    + rewrite Forall_forall. intros r Hr.
      apply elem_of_created_rows in Hr as (n & g & _ & ->).
      left. simpl. lia.
    + intros Hin. apply elem_of_created_rows in Hin as (n & g & _ & Heq).
      injection Heq as Hid _. lia.
Qed.

(** Passing and pending features make up the store. *)
Lemma count_passing_pending (db : Database) :
  passing_count db + Z.of_nat (length (pending_queue db)) = total_count db.
Proof.
  unfold passing_count, total_count, pending_queue.
  rewrite <- count_filter_passes, <- count_query. unfold count, filter_passes.
  rewrite order_by_priority_id_perm.
  rewrite <- (filter_app_complement
                (fun r : Z * Feature => Feature.passes r.2 = true) (query db)) at 3.
  rewrite length_app.
  rewrite (list_filter_iff (fun r : Z * Feature => ¬ Feature.passes r.2 = true)
             (fun r : Z * Feature => Feature.passes r.2 = false)).
  - lia.
  - intros [i f]. simpl. destruct (Feature.passes f); naive_solver.
Qed.

(** ** The queue under updates, creates and deletes *)

(** X1. Marking a stored feature as passing takes it, and nothing else,
    out of the pending queue, whose order is otherwise kept; when it was
    the feature [get_next_feature] served, the next call serves the one
    that followed it, or answers 404 when none did. *)
Theorem marking_passing_advances_queue (db : Database) (feature_id : Z) (f : Feature) :
  table db !! feature_id = Some f ->
  exists db',
    update_feature feature_id {| FeatureUpdate.passes := true |} db
    = (Return (to_dict (feature_id, set_passes true f)), db')
    /\ pending_queue db' = filter (fun r => r.1 <> feature_id) (pending_queue db)
    /\ (forall rest, pending_queue db = (feature_id, f) :: rest ->
          pending_queue db' = rest
          /\ get_next_feature db'
             = (match head rest with
                | Some r => Return (to_dict r)
                | None => Raise nothing_pending
                end, db')).
Proof.
  intros Hf.
  set (db' := {| table := <[feature_id := set_passes true f]> (table db);
                 next_id := next_id db |}).
  assert (Hcall : update_feature feature_id {| FeatureUpdate.passes := true |} db
                  = (Return (to_dict (feature_id, set_passes true f)), db')).
  { unfold update_feature, bind, get, put, refresh, ret. simpl.
    rewrite Hf. simpl. by rewrite lookup_insert_eq. }
  assert (Hqueue : pending_queue db'
                   = filter (fun r => r.1 <> feature_id) (pending_queue db)).
  { apply (rows_sorted_unique db').
    - intros r Hr. by apply elem_of_pending_queue in Hr as [? _].
    - apply sorted_pending_queue.
    - apply StronglySorted_filter, sorted_pending_queue.
    - apply NoDup_pending_queue.
    - apply NoDup_filter, NoDup_pending_queue.
    - intros [j g]. rewrite list_elem_of_filter, !elem_of_pending_queue.
      unfold stored, db'. simpl. rewrite lookup_insert_Some. split.
      + intros [[[-> <-]|[Hne Hg]] Hp]; [done|]. auto.
      + intros [Hne [Hg Hp]]. split; [|done]. right. auto. }
  exists db'. split; [done|]. split; [done|].
  intros rest Hrest.
  assert (Hrest' : pending_queue db' = rest).
  { rewrite Hqueue, Hrest, filter_cons_False by (simpl; auto).
    pose proof (NoDup_pending_queue db) as Hnodup.
    assert (Hids : NoDup (pending_queue db).*1).
    { apply (stored_ids_NoDup db); [|done].
      intros r Hr. by apply elem_of_pending_queue in Hr as [? _]. }
    rewrite Hrest in Hids. simpl in Hids. apply NoDup_cons in Hids as [Hnotin _].
    clear -Hnotin. induction rest as [|[j g] rest IH]; [done|].
    rewrite filter_cons_True.
    - f_equal. apply IH. intros Hin. apply Hnotin. by right.
    - simpl. intros ->. apply Hnotin. left. }
  split; [done|]. by rewrite get_next_feature_eq, Hrest'.
Qed.

(** The theorem at the six-feature store, whose queue starts with
    feature 2: once it is marked as passing, the next is feature 4. *)
Lemma marking_passing_advances_queue_witness :
  exists db',
    update_feature 2 {| FeatureUpdate.passes := true |} six_db
    = (Return (to_dict (2, sample_row 1 true)), db')
    /\ get_next_feature db' = (Return (to_dict (4, sample_row 1 false)), db').
Proof.
  destruct (marking_passing_advances_queue six_db 2 (sample_row 1 false) eq_refl)
    as (db' & Hcall & _ & Hnext).
  exists db'. split; [exact Hcall|].
  destruct (Hnext (tail six_db_pending)) as [_ H].
  - vm_compute. reflexivity.
  - exact H.
Defined.

Lemma total_count_all_rows (db : Database) :
  total_count db = Z.of_nat (length (all_rows db)).
Proof.
  unfold total_count, all_rows. rewrite order_by_priority_id_perm.
  unfold query. by rewrite length_map_to_list.
Qed.

Lemma parse_FeatureCreate_valid (b : FeatureCreateBody) :
  FeatureCreate_constraints b = true -> parse_FeatureCreate b = Return (declared b).
Proof. intros H. unfold parse_FeatureCreate. by rewrite H. Qed.

Lemma parse_FeatureBulkCreate_valid (body : list FeatureCreateBody) :
  body <> [] ->
  Forall (fun b => FeatureCreate_constraints b = true) body ->
  parse_FeatureBulkCreate body
  = Return {| FeatureBulkCreate.features := declared <$> body |}.
Proof.
  intros Hne Hvalid.
  destruct (parse_FeatureBulkCreate_cases body) as [[[?|Hex] _]|(_ & _ & ->)]; try done.
  apply Exists_exists in Hex as (b & Hb & Hinv).
  rewrite Forall_forall in Hvalid. specialize (Hvalid b Hb).
  apply FeatureCreate_constraints_false in Hinv. congruence.
Qed.

(** What a store holds once rows with larger priorities were added under
    unused ids: its queue and its full listing grow at the end. *)
Lemma rows_after_create (db db' : Database) (new : list (Z * Feature)) :
  (forall r, stored db' r <-> stored db r \/ r ∈ new) ->
  StronglySorted by_priority_id new -> NoDup new ->
  (forall r, r ∈ new ->
     Feature.passes r.2 = false /\ next_priority db <= Feature.priority r.2) ->
  all_rows db' = all_rows db ++ new
  /\ pending_queue db' = pending_queue db ++ new
  /\ total_count db' = total_count db + list_len new
  /\ passing_count db' = passing_count db.
Proof.
  intros Hmem Hsorted Hnodup Hnew.
  assert (Hall : all_rows db' = all_rows db ++ new).
  { apply (rows_append db'); try done.
    - intros r Hr. by apply elem_of_all_rows.
    - apply order_by_priority_id_sorted.
    - apply NoDup_all_rows.
    - apply order_by_priority_id_sorted.
    - apply NoDup_all_rows.
    - intros x1 x2 H1 H2. apply elem_of_all_rows in H1.
      pose proof (next_priority_above db x1 H1). destruct (Hnew x2 H2). lia.
    - intros r. by rewrite !elem_of_all_rows, Hmem. }
  assert (Hqueue : pending_queue db' = pending_queue db ++ new).
  { apply (rows_append db'); try done.
    - intros r Hr. by apply elem_of_pending_queue in Hr as [? _].
    - apply sorted_pending_queue.
    - apply NoDup_pending_queue.
    - apply sorted_pending_queue.
    - apply NoDup_pending_queue.
    - intros x1 x2 H1 H2. apply elem_of_pending_queue in H1 as [H1 _].
      pose proof (next_priority_above db x1 H1). destruct (Hnew x2 H2). lia.
    - intros r. rewrite !elem_of_pending_queue, Hmem. split.
      + intros [[?|?] ?]; auto.
      + intros [[? ?]|Hr]; [auto|]. destruct (Hnew r Hr). auto. }
  split; [done|]. split; [done|].
  assert (Htotal : total_count db' = total_count db + list_len new).
  { rewrite !total_count_all_rows, Hall, length_app. unfold list_len. lia. }
  split; [done|].
  pose proof (count_passing_pending db) as H1.
  pose proof (count_passing_pending db') as H2.
  rewrite Hqueue, length_app in H2. unfold list_len in Htotal. lia.
Qed.

(** X2. A single create on a well-formed store, with a body the schema
    accepts, returns the stored feature; the feature is last in the full
    listing and last in the pending queue, so [get_next_feature] serves what
    it served before, and the created feature only when nothing was
    pending; [get_feature] on the returned id gives the returned feature
    and every other id answers as before; [total] grows by one and
    [passing] stays. *)
Theorem created_feature_goes_last (db : Database) (b : FeatureCreateBody) :
  wf_db db ->
  FeatureCreate_constraints b = true ->
  exists db',
    POST_features b db
    = (Return (to_dict (next_id db, new_feature (next_priority db) (declared b))), db')
    /\ all_rows db'
       = all_rows db ++ [(next_id db, new_feature (next_priority db) (declared b))]
    /\ pending_queue db'
       = pending_queue db ++ [(next_id db, new_feature (next_priority db) (declared b))]
    /\ get_next_feature db'
       = (Return (to_dict (default (next_id db, new_feature (next_priority db) (declared b))
                                   (head (pending_queue db)))), db')
    /\ get_feature (next_id db) db'
       = (Return (to_dict (next_id db, new_feature (next_priority db) (declared b))), db')
    /\ (forall j, j <> next_id db -> get_feature j db' = ((get_feature j db).1, db'))
    /\ total_count db' = total_count db + 1
    /\ passing_count db' = passing_count db.
Proof.
  intros Hwf Hvalid.
  set (row := (next_id db, new_feature (next_priority db) (declared b))).
  unfold POST_features, bind, lift. rewrite parse_FeatureCreate_valid by done.
  rewrite create_feature_spec.
  set (db' := {| table := <[next_id db := new_feature (next_priority db) (declared b)]>
                            (table db);
                 next_id := next_id db + 1 |}).
  assert (Hfree : forall r, stored db r -> r.1 <> next_id db).
  { intros r Hr Heq. assert (r.1 < next_id db) by (apply Hwf; eexists; exact Hr). lia. }
  destruct (rows_after_create db db' [row]) as (Hall & Hqueue & Htotal & Hpassing).
  { intros [j g]. unfold stored, db'. simpl.
    rewrite lookup_insert_Some, list_elem_of_singleton. split.
    - intros [[<- <-]|[_ ?]]; [by right|by left].
    - intros [Hg|Heq]; [right|left].
      + split; [|done]. intros Heq. by apply (Hfree (j, g)).
      + by injection Heq as -> ->. }
  { repeat constructor. }
  { repeat constructor. by apply not_elem_of_nil. }
  { intros r Hr. apply list_elem_of_singleton in Hr as ->. simpl. split; [done|lia]. }
  exists db'. split; [done|]. split; [done|]. split; [done|].
  split; [|split; [|split; [|split; [done|done]]]].
  - rewrite get_next_feature_eq, Hqueue.
    by destruct (pending_queue db).
  - rewrite get_feature_eq. unfold db'. simpl. by rewrite lookup_insert_eq.
  - intros j Hj. rewrite !get_feature_eq. unfold db'. simpl.
    by rewrite lookup_insert_ne.
Qed.

(** The theorem at the six-feature store: the created feature gets id 7
    and priority 6, and the next pending feature is still feature 2. *)
Lemma created_feature_goes_last_witness :
  exists db',
    POST_features (sample_body "api" ["call it"] []) six_db
    = (Return (to_dict (7, new_feature 6 (declared (sample_body "api" ["call it"] [])))), db')
    /\ get_next_feature db' = (Return (to_dict (2, sample_row 1 false)), db')
    /\ total_count db' = 7.
Proof.
  destruct (created_feature_goes_last six_db (sample_body "api" ["call it"] []))
    as (db' & Hcall & _ & _ & Hnext & _ & _ & Htotal & _).
  - intros i [f Hf]. apply elem_of_map_to_list in Hf.
    set (rows := map_to_list _) in Hf. vm_compute in (value of rows). subst rows.
    rewrite !elem_of_cons, elem_of_nil in Hf.
    decompose [or] Hf; try done; simplify_eq; simpl; lia.
  - reflexivity.
  - exists db'. split; [exact Hcall|]. split; [exact Hnext|]. exact Htotal.
Defined.

(** X3. A bulk create on a well-formed store, with a body the schema
    accepts, adds its features at the end of the full listing and of the
    pending queue, in input order; [total] grows by their number and
    [passing] stays. *)
Theorem bulk_created_features_go_last (db : Database) (body : list FeatureCreateBody) :
  wf_db db ->
  body <> [] ->
  Forall (fun b => FeatureCreate_constraints b = true) body ->
  exists db',
    POST_features_bulk body db
    = (Return {| BulkCreateResponse.created := list_len body |}, db')
    /\ all_rows db'
       = all_rows db ++ created_rows (next_id db) (next_priority db) (declared <$> body)
    /\ pending_queue db'
       = pending_queue db
           ++ created_rows (next_id db) (next_priority db) (declared <$> body)
    /\ total_count db' = total_count db + list_len body
    /\ passing_count db' = passing_count db.
Proof.
  intros Hwf Hne Hvalid.
  unfold POST_features_bulk, bind, lift.
  rewrite parse_FeatureBulkCreate_valid by done.
  set (data := {| FeatureBulkCreate.features := declared <$> body |}).
  pose proof (create_features_bulk_rows data db) as Hrows.
  destruct (create_features_bulk_spec data db) as (db' & Heq & Hnext & Hnew & Hold).
  rewrite Heq in Hrows |- *. simpl in Hrows, Hnext, Hnew, Hold.
  set (new := created_rows (next_id db) (next_priority db) (declared <$> body)).
  destruct (rows_after_create db db' new) as (Hall & Hqueue & Htotal & Hpassing).
  { intros [k row]. unfold new. rewrite elem_of_created_rows. unfold stored. simpl. split.
    - intros Hk. destruct (Hrows k row Hk) as [?|(n & f & Hn & -> & ->)]; [by left|].
      right. by exists n, f.
    - intros [Hk|(n & f & Hn & Heq')].
      + rewrite Hold; [done|]. left. apply Hwf. eauto.
      + injection Heq' as -> ->. by apply Hnew. }
  { apply created_rows_sorted. }
  { apply created_rows_sorted. }
  { intros r Hr. apply elem_of_created_rows in Hr as (n & f & _ & ->). simpl.
    split; [done|lia]. }
  exists db'. unfold list_len in *.
  split; [by unfold data; simpl; rewrite length_fmap|].
  split; [done|]. split; [done|]. split; [|done].
  rewrite Htotal. unfold new, created_rows. by rewrite length_imap, length_fmap.
Qed.

(** The theorem at the one-row store (id 1) and a body of two features:
    the listing is then in the order of ids 1, 2, 3. *)
Lemma bulk_created_features_go_last_witness :
  exists db',
    POST_features_bulk [sample_body "ui" ["open the page"] [];
                        sample_body "api" ["call it"] []] (one_row_db 4)
    = (Return {| BulkCreateResponse.created := 2 |}, db')
    /\ (all_rows db').*1 = [1; 2; 3]
    /\ Feature.priority <$> (all_rows db').*2 = [4; 5; 6].
Proof.
  destruct (bulk_created_features_go_last (one_row_db 4)
              [sample_body "ui" ["open the page"] []; sample_body "api" ["call it"] []])
    as (db' & Hcall & Hall & _ & _ & _).
  - apply wf_one_row_db.
  - discriminate.
  - repeat constructor.
  - exists db'. split; [exact Hcall|]. rewrite Hall.
    split; vm_compute; reflexivity.
Defined.

(** X4. Deleting a stored feature removes that record and no other: its
    id is then unknown to [get_feature], to [update_feature] and to a
    second [delete_feature] (all answer 404 and change nothing), every
    other id answers as before, the listing keeps the order of the
    remaining features, and [total] drops by one. *)
Theorem delete_removes_only_that (db : Database) (feature_id : Z) (f : Feature)
    (update : FeatureUpdate) :
  table db !! feature_id = Some f ->
  exists db',
    delete_feature feature_id db = (Return tt, db')
    /\ get_feature feature_id db' = (Raise not_found, db')
    /\ update_feature feature_id update db' = (Raise not_found, db')
    /\ delete_feature feature_id db' = (Raise not_found, db')
    /\ (forall j, j <> feature_id -> get_feature j db' = ((get_feature j db).1, db'))
    /\ all_rows db' = filter (fun r => r.1 <> feature_id) (all_rows db)
    /\ total_count db' = total_count db - 1.
Proof.
  intros Hf.
  set (db' := {| table := delete feature_id (table db); next_id := next_id db |}).
  exists db'.
  assert (Hgone : table db' !! feature_id = None) by apply lookup_delete_eq.
  split; [|split; [|split; [|split; [|split; [|split]]]]].
  - unfold delete_feature, bind, get, put. simpl. by rewrite Hf.
  - by rewrite get_feature_eq, Hgone.
  - unfold update_feature, bind, get. simpl. by rewrite lookup_delete_eq.
  - unfold delete_feature, bind, get. simpl. by rewrite lookup_delete_eq.
  - intros j Hj. rewrite !get_feature_eq. unfold db'. simpl.
    by rewrite lookup_delete_ne.
  - apply (rows_sorted_unique db').
    + intros r Hr. by apply elem_of_all_rows.
    + apply order_by_priority_id_sorted.
    + apply StronglySorted_filter, order_by_priority_id_sorted.
    + apply NoDup_all_rows.
    + apply NoDup_filter, NoDup_all_rows.
    + intros [j g]. rewrite list_elem_of_filter, !elem_of_all_rows.
      unfold stored, db'. simpl. rewrite lookup_delete_Some.
      split; intros [? ?]; split; congruence.
  - unfold total_count, db'. simpl.
    rewrite map_size_delete_Some by eauto.
    assert (size (table db) <> 0%nat).
    { intros Hz. apply map_size_empty_iff in Hz. rewrite Hz, lookup_empty in Hf. done. }
    lia.
Qed.

(** The theorem at the six-feature store and feature 2: the listing is
    then in the order of ids 6, 4, 3, 1, 5. *)
Lemma delete_removes_only_that_witness :
  exists db',
    delete_feature 2 six_db = (Return tt, db')
    /\ delete_feature 2 db' = (Raise not_found, db')
    /\ (all_rows db').*1 = [6; 4; 3; 1; 5]
    /\ total_count db' = 5.
Proof.
  destruct (delete_removes_only_that six_db 2 (sample_row 1 false)
              {| FeatureUpdate.passes := true |} eq_refl)
    as (db' & Hcall & _ & _ & Hagain & _ & Hall & Htotal).
  exists db'. split; [exact Hcall|]. split; [exact Hagain|].
  split; [rewrite Hall; vm_compute; reflexivity|exact Htotal].
Defined.

(** X5. Setting [passes] to the value it has changes nothing, and setting
    it back to its former value restores the store exactly: updates of one
    feature are idempotent and reversible. *)
Theorem update_is_idempotent_and_reversible (db : Database) (feature_id : Z)
    (f : Feature) (v : bool) :
  table db !! feature_id = Some f ->
  exists db',
    update_feature feature_id {| FeatureUpdate.passes := v |} db
    = (Return (to_dict (feature_id, set_passes v f)), db')
    /\ update_feature feature_id {| FeatureUpdate.passes := v |} db'
       = (Return (to_dict (feature_id, set_passes v f)), db')
    /\ update_feature feature_id {| FeatureUpdate.passes := Feature.passes f |} db'
       = (Return (to_dict (feature_id, f)), db)
    /\ update_feature feature_id {| FeatureUpdate.passes := Feature.passes f |} db
       = (Return (to_dict (feature_id, f)), db).
Proof.
  intros Hf.
  assert (Hset : forall g w, set_passes w (set_passes v g) = set_passes w g) by done.
  assert (Hid : set_passes (Feature.passes f) f = f) by (by destruct f).
  assert (Hupd : forall d g w, table d !! feature_id = Some g ->
            update_feature feature_id {| FeatureUpdate.passes := w |} d
            = (Return (to_dict (feature_id, set_passes w g)),
               {| table := <[feature_id := set_passes w g]> (table d);
                  next_id := next_id d |})).
  { intros d g w Hg. unfold update_feature, bind, get, put, refresh, ret. simpl.
    rewrite Hg. simpl. by rewrite lookup_insert_eq. }
  eexists. split; [by apply Hupd|].
  split; [|split].
  - rewrite (Hupd _ (set_passes v f)) by apply lookup_insert_eq.
    rewrite Hset. simpl. by rewrite insert_insert_eq.
  - rewrite (Hupd _ (set_passes v f)) by apply lookup_insert_eq.
    rewrite Hset, Hid. simpl. rewrite insert_insert_eq, insert_id by done.
    by destruct db.
  - rewrite (Hupd _ f) by done. rewrite Hid, insert_id by done. by destruct db.
Qed.

(** The theorem at the six-feature store: feature 3 is marked as passing,
    again, and then as pending, which gives the store back. *)
Lemma update_is_idempotent_and_reversible_witness :
  exists db',
    update_feature 3 {| FeatureUpdate.passes := true |} six_db
    = (Return (to_dict (3, sample_row 2 true)), db')
    /\ update_feature 3 {| FeatureUpdate.passes := true |} db'
       = (Return (to_dict (3, sample_row 2 true)), db')
    /\ update_feature 3 {| FeatureUpdate.passes := false |} db'
       = (Return (to_dict (3, sample_row 2 false)), six_db).
Proof.
  destruct (update_is_idempotent_and_reversible six_db 3 (sample_row 2 false) true eq_refl)
    as (db' & H1 & H2 & H3 & _).
  exists db'. split; [exact H1|]. split; [exact H2|exact H3].
Defined.

(** ** Statistics, listing and the queue agree *)

(** X6. On every store the statistics satisfy [0 <= passing <= total], and
    [get_next_feature] answers 404 exactly when [passing = total]; in
    particular on an empty store. *)
Theorem nothing_pending_iff_all_passing (db : Database) :
  exists s,
    get_stats db = (Return s, db)
    /\ 0 <= StatsResponse.passing s <= StatsResponse.total s
    /\ ((get_next_feature db).1 = Raise nothing_pending
        <-> StatsResponse.passing s = StatsResponse.total s)
    /\ ((exists resp, (get_next_feature db).1 = Return resp)
        <-> StatsResponse.passing s < StatsResponse.total s).
Proof.
  eexists. split; [apply get_stats_eq|]. simpl.
  pose proof (count_passing_pending db) as Hsum.
  assert (0 <= passing_count db) by (unfold passing_count; lia).
  split; [lia|].
  rewrite get_next_feature_eq. simpl.
  destruct (pending_queue db) as [|r rest] eqn:E; simpl in *.
  - split; [split; [lia|done]|]. split; [intros [? ?]; done|lia].
  - split; [split; [done|lia]|]. split; [lia|eauto].
Qed.

(** X7. For every store and every admissible window, the [total] of a
    list call filtered on [passes=true] is the [passing] of the
    statistics, the [total] of an unfiltered one is their [total], and the
    totals of the two [passes] filters add up to it. *)
Theorem list_totals_match_stats (db : Database) (limit offset : Z) :
  1 <= limit <= 1000 -> 0 <= offset ->
  exists s passing pending all,
    get_stats db = (Return s, db)
    /\ GET_features limit offset (Some true) None db = (Return passing, db)
    /\ GET_features limit offset (Some false) None db = (Return pending, db)
    /\ GET_features limit offset None None db = (Return all, db)
    /\ FeatureListResponse.total passing = StatsResponse.passing s
    /\ FeatureListResponse.total all = StatsResponse.total s
    /\ FeatureListResponse.total passing + FeatureListResponse.total pending
       = FeatureListResponse.total all.
Proof.
  intros Hl Ho. do 4 eexists.
  split; [apply get_stats_eq|].
  split; [by apply GET_features_eq|].
  split; [by apply GET_features_eq|].
  split; [by apply GET_features_eq|]. simpl.
  pose proof (count_passing_pending db) as Hsum.
  pose proof (count_filter_passes db true) as Hp.
  pose proof (count_query db) as Ht.
  unfold count in Hp, Ht. fold (passing_count db) in Hp. fold (total_count db) in Ht.
  assert (Hq : length (filter_passes false (query db)) = length (pending_queue db)).
  { unfold pending_queue. by rewrite order_by_priority_id_perm. }
  rewrite Hq. lia.
Qed.

(** The theorem at the six-feature store: one passing, five pending. *)
Lemma list_totals_match_stats_witness :
  exists passing pending all,
    GET_features 50 0 (Some true) None six_db = (Return passing, six_db)
    /\ GET_features 50 0 (Some false) None six_db = (Return pending, six_db)
    /\ GET_features 50 0 None None six_db = (Return all, six_db)
    /\ FeatureListResponse.total passing + FeatureListResponse.total pending
       = FeatureListResponse.total all.
Proof.
  destruct (list_totals_match_stats six_db 50 0) as (s & p & q & a & _ & H1 & H2 & H3 & _ & _ & H);
    [lia|lia|].
  exists p, q, a. split; [exact H1|]. split; [exact H2|]. split; [exact H3|exact H].
Defined.

(** X8. A page holds [min(limit, max(0, total - offset))] features: never
    more than [limit], all that remain when fewer remain, and none, with
    [total] still reported, when [offset] is at or past the end. *)
Theorem page_length (db : Database) (limit offset : Z)
    (passes : option bool) (category : option string) :
  1 <= limit <= 1000 -> 0 <= offset ->
  exists page,
    GET_features limit offset passes category db = (Return page, db)
    /\ list_len (FeatureListResponse.features page)
       = Z.min limit (Z.max 0 (FeatureListResponse.total page - offset))
    /\ (FeatureListResponse.total page <= offset ->
          FeatureListResponse.features page = []).
Proof.
  intros Hl Ho. eexists. split; [by apply GET_features_eq|]. simpl.
  set (rows := order_by_priority_id (selected db passes category)).
  assert (Hlen : length (selected db passes category) = length rows).
  { unfold rows. by rewrite order_by_priority_id_perm. }
  rewrite Hlen. unfold list_len.
  assert (Hpage : length (to_dict <$> take (Z.to_nat limit) (drop (Z.to_nat offset) rows))
                  = (Z.to_nat limit `min` (length rows - Z.to_nat offset))%nat).
  { by rewrite length_fmap, length_take, length_drop. }
  split; [rewrite Hpage; lia|].
  intros Hend. apply nil_length_inv. rewrite Hpage. lia.
Qed.

(** The theorem at the six-feature store: of its five pending features a
    page of three from offset 4 holds one, and a page from offset 5 none. *)
Lemma page_length_witness :
  exists page page',
    GET_features 3 4 (Some false) None six_db = (Return page, six_db)
    /\ list_len (FeatureListResponse.features page) = 1
    /\ GET_features 3 5 (Some false) None six_db = (Return page', six_db)
    /\ FeatureListResponse.features page' = []
    /\ FeatureListResponse.total page' = 5.
Proof.
  destruct (page_length six_db 3 4 (Some false) None) as (p & H1 & Hlen & _); [lia|lia|].
  destruct (page_length six_db 3 5 (Some false) None) as (p' & H2 & _ & Hnil); [lia|lia|].
  assert (Ht : FeatureListResponse.total p = 5).
  { injection H1 as <-. vm_compute. reflexivity. }
  assert (Ht' : FeatureListResponse.total p' = 5).
  { injection H2 as <-. vm_compute. reflexivity. }
  exists p, p'. split; [exact H1|]. split; [rewrite Hlen, Ht; reflexivity|].
  split; [exact H2|]. split; [apply Hnil; rewrite Ht'; lia|exact Ht'].
Defined.

(** X9. Consecutive pages join: a page of [limit1] from [offset] followed
    by a page of [limit2] from [offset + limit1] is the page of
    [limit1 + limit2] from [offset]; nothing is skipped or repeated at the
    seam. *)
Theorem pages_join (db : Database) (limit1 limit2 offset : Z)
    (passes : option bool) (category : option string) :
  1 <= limit1 -> 1 <= limit2 -> limit1 + limit2 <= 1000 -> 0 <= offset ->
  exists page1 page2 page,
    GET_features limit1 offset passes category db = (Return page1, db)
    /\ GET_features limit2 (offset + limit1) passes category db = (Return page2, db)
    /\ GET_features (limit1 + limit2) offset passes category db = (Return page, db)
    /\ FeatureListResponse.features page
       = FeatureListResponse.features page1 ++ FeatureListResponse.features page2
    /\ FeatureListResponse.total page1 = FeatureListResponse.total page
    /\ FeatureListResponse.total page2 = FeatureListResponse.total page.
Proof.
  intros H1 H2 Hsum Ho. do 3 eexists.
  split; [apply GET_features_eq; lia|].
  split; [apply GET_features_eq; lia|].
  split; [apply GET_features_eq; lia|]. simpl.
  split; [|done].
  rewrite <- fmap_app. f_equal.
  replace (Z.to_nat (limit1 + limit2)) with (Z.to_nat limit1 + Z.to_nat limit2)%nat by lia.
  replace (Z.to_nat (offset + limit1)) with (Z.to_nat offset + Z.to_nat limit1)%nat by lia.
  by rewrite <- take_take_drop, drop_drop.
Qed.

(** The theorem at the six-feature store: pages of two and three. *)
Lemma pages_join_witness :
  exists page1 page2 page,
    GET_features 2 1 None None six_db = (Return page1, six_db)
    /\ GET_features 3 3 None None six_db = (Return page2, six_db)
    /\ GET_features 5 1 None None six_db = (Return page, six_db)
    /\ FeatureListResponse.features page
       = FeatureListResponse.features page1 ++ FeatureListResponse.features page2.
Proof.
  destruct (pages_join six_db 2 3 1 None None) as (p1 & p2 & p & H1 & H2 & H3 & H & _);
    [lia|lia|lia|lia|].
  exists p1, p2, p. split; [exact H1|]. split; [exact H2|]. split; [exact H3|exact H].
Defined.

(** X10. The first page of one feature of the listing filtered on
    [passes=false] is what [get_next_feature] serves: that feature alone
    when it returns, and no feature when it answers 404. *)
Theorem first_pending_listed_is_next (db : Database) :
  exists page,
    GET_features 1 0 (Some false) None db = (Return page, db)
    /\ FeatureListResponse.features page
       = match (get_next_feature db).1 with
         | Return feature => [feature]
         | Raise _ => []
         end
    /\ FeatureListResponse.total page = list_len (pending_queue db).
Proof.
  eexists. split; [apply GET_features_eq; lia|]. simpl.
  rewrite get_next_feature_eq. simpl. unfold selected. fold (pending_queue db).
  split.
  - rewrite drop_0. by destruct (pending_queue db) as [|r [|r' rest]].
  - unfold pending_queue, list_len. by rewrite order_by_priority_id_perm.
Qed.

(** ** What is accepted, and what a store can hold *)

Lemma FeatureCreate_constraints_true (b : FeatureCreateBody) :
  FeatureCreate_constraints b = true <-> ~ invalid_input b.
Proof.
  rewrite <- FeatureCreate_constraints_false.
  destruct (FeatureCreate_constraints b); split; congruence.
Qed.

Lemma json_of_inj (b b' : FeatureCreateBody) : json_of b = json_of b' -> b = b'.
Proof. destruct b, b'. unfold json_of. simpl. congruence. Qed.

Lemma typed_FeatureCreate_cases (j : json_field FeatureCreateJson) :
  (exists b, j = json_of b /\ typed_FeatureCreate j = Return b)
  \/ ((forall b, j <> json_of b)
      /\ typed_FeatureCreate j = Raise RequestValidationError).
Proof.
  destruct j as [| |[[| |c] [| |n] [| |d] [| |st] e]];
    try (right; split; [intros b; unfold json_of; congruence|reflexivity]).
  left. by eexists {| FeatureCreateBody.category := c |}.
Qed.

Lemma typed_items_cases (js : list (json_field FeatureCreateJson)) :
  (exists bs, js = json_of <$> bs /\ typed_items js = Return bs)
  \/ ((forall bs, js <> json_of <$> bs)
      /\ typed_items js = Raise RequestValidationError).
Proof.
  induction js as [|j js IH]; [left; by exists []|]. simpl.
  destruct (typed_FeatureCreate_cases j) as [(b & -> & ->)|[Hno ->]].
  - destruct IH as [(bs & -> & ->)|[Hno ->]].
    + left. by exists (b :: bs).
    + right. split; [|done]. intros [|b' bs] H; [done|].
      rewrite fmap_cons in H. apply (Hno bs). congruence.
  - right. split; [|done]. intros [|b' bs] H; [done|].
    rewrite fmap_cons in H. apply (Hno b'). congruence.
Qed.

Lemma json_of_fmap_inj (bs bs' : list FeatureCreateBody) :
  json_of <$> bs = json_of <$> bs' -> bs = bs'.
Proof.
  revert bs'. induction bs as [|b bs IH]; intros [|b' bs'] H; try done.
  rewrite !fmap_cons in H.
  assert (Hb : json_of b = json_of b') by congruence.
  assert (Hbs : json_of <$> bs = json_of <$> bs') by congruence.
  by rewrite (json_of_inj _ _ Hb), (IH _ Hbs).
Qed.

Lemma bulk_json_of_inj (bs bs' : list FeatureCreateBody) :
  bulk_json_of bs = bulk_json_of bs' -> bs = bs'.
Proof. unfold bulk_json_of. intros H. apply json_of_fmap_inj. congruence. Qed.

Lemma typed_FeatureBulkCreate_cases (j : json_field FeatureBulkCreateJson) :
  (exists bs, j = bulk_json_of bs /\ typed_FeatureBulkCreate j = Return bs)
  \/ ((forall bs, j <> bulk_json_of bs)
      /\ typed_FeatureBulkCreate j = Raise RequestValidationError).
Proof.
  destruct j as [| |[[| |js]]];
    try (right; split; [intros bs; unfold bulk_json_of; congruence|reflexivity]).
  simpl. destruct (typed_items_cases js) as [(bs & -> & ->)|[Hno ->]].
  - left. by exists bs.
  - right. split; [|done]. intros bs H. apply (Hno bs).
    unfold bulk_json_of in H. congruence.
Qed.

(** A single create on a well-typed body: refused for a broken bound, and
    then without a change of the store, or accepted. *)
Lemma POST_features_cases (db : Database) (b : FeatureCreateBody) :
  (invalid_input b /\ POST_features b db = (Raise RequestValidationError, db))
  \/ (~ invalid_input b
      /\ exists resp db', POST_features b db = (Return resp, db')).
Proof.
  unfold POST_features, bind, lift.
  destruct (parse_FeatureCreate_cases b) as [[Hb ->]|[Hb ->]]; [by left|right].
  split; [done|]. rewrite create_feature_spec. eauto.
Qed.

Lemma POST_features_bulk_cases (db : Database) (bs : list FeatureCreateBody) :
  ((bs = [] \/ Exists invalid_input bs)
   /\ POST_features_bulk bs db = (Raise RequestValidationError, db))
  \/ ((bs <> [] /\ Forall (fun b => ~ invalid_input b) bs)
      /\ exists db',
           POST_features_bulk bs db
           = (Return {| BulkCreateResponse.created := list_len bs |}, db')).
Proof.
  unfold POST_features_bulk, bind, lift.
  destruct (parse_FeatureBulkCreate_cases bs) as [[Hbs ->]|(Hne & Hall & ->)];
    [by left|right].
  split; [done|].
  destruct (create_features_bulk_spec
              {| FeatureBulkCreate.features := declared <$> bs |} db)
    as (db' & -> & _). simpl. unfold list_len. rewrite length_fmap. eauto.
Qed.

(** A request either is a well-typed body within the bounds, and is
    accepted, or is refused without a change of the store. *)
Lemma request_POST_features_cases (db : Database) (j : json_field FeatureCreateJson) :
  (exists b, j = json_of b /\ ~ invalid_input b
     /\ exists resp db', request_POST_features j db = (Return resp, db'))
  \/ ((forall b, j = json_of b -> invalid_input b)
      /\ request_POST_features j db = (Raise RequestValidationError, db)).
Proof.
  unfold request_POST_features, bind, lift.
  destruct (typed_FeatureCreate_cases j) as [(b & -> & ->)|[Hj ->]].
  - destruct (POST_features_cases db b) as [[Hi Hr]|[Hv Hr]].
    + right. split; [|exact Hr].
      intros b' Hb'. by rewrite <- (json_of_inj _ _ Hb').
    + left. by exists b.
  - right. split; [|done]. intros b Hb. by destruct (Hj b).
Qed.

Lemma request_POST_features_bulk_cases (db : Database)
    (js : json_field FeatureBulkCreateJson) :
  (exists bs, js = bulk_json_of bs
     /\ bs <> [] /\ Forall (fun b => ~ invalid_input b) bs
     /\ exists db', request_POST_features_bulk js db
                    = (Return {| BulkCreateResponse.created := list_len bs |}, db'))
  \/ ((forall bs, js = bulk_json_of bs -> bs = [] \/ Exists invalid_input bs)
      /\ request_POST_features_bulk js db = (Raise RequestValidationError, db)).
Proof.
  unfold request_POST_features_bulk, bind, lift.
  destruct (typed_FeatureBulkCreate_cases js) as [(bs & -> & ->)|[Hjs ->]].
  - destruct (POST_features_bulk_cases db bs) as [[Hi Hr]|[[Hne Hv] Hr]].
    + right. split; [|exact Hr].
      intros bs' Hbs'. by rewrite <- (bulk_json_of_inj _ _ Hbs').
    + left. by exists bs.
  - right. split; [|done]. intros bs Hbs. by destruct (Hjs bs).
Qed.

(** X11. A create request is accepted exactly when its body is a JSON
    object that carries the four declared keys, each with a value of its
    declared type, within the bounds of the schema, whatever its steps and
    description hold and whatever further keys it has; every other request
    (no object, a declared key missing or of another type, a bound broken)
    is refused with the validation error and leaves the store as it was. A
    bulk request is accepted exactly when its ["features"] is a non-empty
    list of bodies a single create accepts, and then reports as many
    created features as it was given; every other bulk request is refused
    in the same way. *)
Theorem create_refused_iff_invalid (db : Database)
    (j : json_field FeatureCreateJson) (js : json_field FeatureBulkCreateJson) :
  (request_POST_features j db = (Raise RequestValidationError, db)
   <-> forall b, j = json_of b -> invalid_input b)
  /\ ((exists resp db', request_POST_features j db = (Return resp, db'))
      <-> exists b, j = json_of b /\ ~ invalid_input b)
  /\ (request_POST_features_bulk js db = (Raise RequestValidationError, db)
      <-> forall bs, js = bulk_json_of bs -> bs = [] \/ Exists invalid_input bs)
  /\ ((exists bs db',
         js = bulk_json_of bs
         /\ request_POST_features_bulk js db
            = (Return {| BulkCreateResponse.created := list_len bs |}, db'))
      <-> exists bs, js = bulk_json_of bs
            /\ bs <> [] /\ Forall (fun b => ~ invalid_input b) bs)
  /\ ((exists e, request_POST_features j db = (Raise e, db))
      \/ exists resp db', request_POST_features j db = (Return resp, db'))
  /\ ((exists e, request_POST_features_bulk js db = (Raise e, db))
      \/ exists resp db', request_POST_features_bulk js db = (Return resp, db')).
Proof.
  assert (Hexcl : forall bs, (bs = [] \/ Exists invalid_input bs) ->
                  bs <> [] /\ Forall (fun b => ~ invalid_input b) bs -> False).
  { intros bs [->|Hex] [Hne Hall]; [done|].
    apply Exists_exists in Hex as (x & Hx & Hinv).
    rewrite Forall_forall in Hall. by apply (Hall x). }
  assert (Hsingle :
    (request_POST_features j db = (Raise RequestValidationError, db)
     <-> forall b, j = json_of b -> invalid_input b)
    /\ ((exists resp db', request_POST_features j db = (Return resp, db'))
        <-> exists b, j = json_of b /\ ~ invalid_input b)
    /\ ((exists e, request_POST_features j db = (Raise e, db))
        \/ exists resp db', request_POST_features j db = (Return resp, db'))).
  { destruct (request_POST_features_cases db j)
      as [(b & Hb & Hv & resp & db1 & Hr)|[Hall Hr]]; rewrite Hr.
    - split; [|split].
      + split; [intros H; discriminate H|].
        intros H. destruct Hv. by apply H.
      + split; intros _; eauto.
      + right. eauto.
    - split; [|split].
      + done.
      + split; [intros (resp & db' & H); discriminate H|].
        intros (b & Hb & Hv). destruct Hv. by apply Hall.
      + left. by eexists. }
  assert (Hbulk :
    (request_POST_features_bulk js db = (Raise RequestValidationError, db)
     <-> forall bs, js = bulk_json_of bs -> bs = [] \/ Exists invalid_input bs)
    /\ ((exists bs db',
           js = bulk_json_of bs
           /\ request_POST_features_bulk js db
              = (Return {| BulkCreateResponse.created := list_len bs |}, db'))
        <-> exists bs, js = bulk_json_of bs
              /\ bs <> [] /\ Forall (fun b => ~ invalid_input b) bs)
    /\ ((exists e, request_POST_features_bulk js db = (Raise e, db))
        \/ exists resp db', request_POST_features_bulk js db = (Return resp, db'))).
  { destruct (request_POST_features_bulk_cases db js)
      as [(bs & Hbs & Hne & Hv & db2 & Hr)|[Hall Hr]]; rewrite Hr.
    - split; [|split].
      + split; [intros H; discriminate H|].
        intros H. by destruct (Hexcl bs (H bs Hbs)).
      + split; intros _; [by exists bs|by exists bs, db2].
      + right. eauto.
    - split; [|split].
      + done.
      + split; [intros (bs & db' & _ & H); discriminate H|].
        intros (bs & Hbs & Hv). by destruct (Hexcl bs (Hall bs Hbs)).
      + left. by eexists. }
  destruct Hsingle as (H1 & H2 & H5). destruct Hbulk as (H3 & H4 & H6).
  repeat split; first [apply H1|apply H2|apply H3|apply H4|exact H5|exact H6].
Qed.

Lemma within_schema_new_feature (p : Z) (b : FeatureCreateBody) :
  FeatureCreate_constraints b = true ->
  within_schema (new_feature p (declared b)).
Proof.
  unfold FeatureCreate_constraints, within_schema. simpl.
  rewrite !andb_true_iff, !Z.leb_le. tauto.
Qed.

(** A property of rows that every created row has and that an update
    keeps holds of every row of a reachable store. *)
Lemma reachable_rows (P : Feature -> Prop) :
  (forall p b, FeatureCreate_constraints b = true -> 1 <= p ->
     P (new_feature p (declared b))) ->
  (forall v f, P f -> P (set_passes v f)) ->
  forall db, reachable db -> forall i f, table db !! i = Some f -> P f.
Proof.
  intros Hcreate Hupdate db Hreach.
  induction Hreach as [|db body Hr IH|db body Hr IH
                       |db feature_id update Hr IH|db feature_id Hr IH];
    intros i f Hf.
  - unfold empty_db in Hf. simpl in Hf. by rewrite lookup_empty in Hf.
  - destruct (reachable_invariant db Hr) as [_ Hpos].
    unfold POST_features, bind, lift in Hf.
    destruct (parse_FeatureCreate_cases body) as [[_ Hp]|[Hv Hp]];
      rewrite Hp in Hf; [eauto|].
    rewrite create_feature_spec in Hf. simpl in Hf.
    apply lookup_insert_Some in Hf as [[_ <-]|[_ Hf]]; [|eauto].
    apply Hcreate; [by apply FeatureCreate_constraints_true|by apply next_priority_pos].
  - destruct (reachable_invariant db Hr) as [_ Hpos].
    unfold POST_features_bulk, bind, lift in Hf.
    destruct (parse_FeatureBulkCreate_cases body) as [[_ Hp]|(_ & Hall & Hp)];
      rewrite Hp in Hf; [eauto|].
    apply create_features_bulk_rows in Hf as [Hf|(n & g & Hn & _ & ->)]; [eauto|].
    simpl in Hn. rewrite list_lookup_fmap in Hn.
    destruct (body !! n) as [b|] eqn:Hb; [|done]. injection Hn as <-.
    apply Hcreate.
    + apply FeatureCreate_constraints_true.
      rewrite Forall_forall in Hall. apply Hall. by eapply list_elem_of_lookup_2.
    + pose proof (next_priority_pos db Hpos). lia.
  - unfold update_feature, bind, get, put, refresh, ret in Hf. simpl in Hf.
    destruct (table db !! feature_id) as [g|] eqn:E; [|eauto]. simpl in Hf.
    apply lookup_insert_Some in Hf as [[_ <-]|[_ Hf]]; eauto.
  - unfold delete_feature, bind, get, put in Hf. simpl in Hf.
    destruct (table db !! feature_id) as [g|] eqn:E; [|eauto]. simpl in Hf.
    apply lookup_delete_Some in Hf as [_ Hf]. eauto.
Qed.

(** X12. Every feature of a store that started empty and was changed
    through the handlers only is within the bounds of the schema
    (category of 1 to 100 characters, name of 1 to 255, a non-empty
    description, at least one step) and has a priority of at least 1:
    what validation checked on entry no later operation undoes. *)
Theorem reachable_rows_within_schema (db : Database) (feature_id : Z) (f : Feature) :
  reachable db ->
  table db !! feature_id = Some f ->
  within_schema f /\ 1 <= Feature.priority f.
Proof.
  intros Hr Hf.
  apply (reachable_rows (fun f => within_schema f /\ 1 <= Feature.priority f))
    with (db := db) (i := feature_id); [| |exact Hr|exact Hf].
  - intros p b Hb Hp. split; [by apply within_schema_new_feature|done].
  - intros v g [Hs Hp]. by destruct g.
Qed.

(** A store built by a bulk create of two, an update and a single create. *)
Lemma reachable_sample :
  reachable
    (POST_features (sample_body "db" ["migrate"] [])
       (update_feature 1 {| FeatureUpdate.passes := true |}
          (POST_features_bulk [sample_body "ui" ["open the page"] [];
                               sample_body "api" ["call it"] []] empty_db).2).2).2.
Proof. repeat constructor. Qed.

(** The theorem at that store and its feature 3. *)
Lemma reachable_rows_within_schema_witness :
  within_schema (new_feature 3 (declared (sample_body "db" ["migrate"] [])))
  /\ 1 <= Feature.priority (new_feature 3 (declared (sample_body "db" ["migrate"] []))).
Proof.
  apply (reachable_rows_within_schema _ 3 _ reachable_sample).
  vm_compute. reflexivity.
Defined.

(** X13. In a store that started empty and was changed through the
    handlers only, no two features share a priority: each create takes a
    priority above all stored ones, and updates and deletes leave
    priorities alone. *)
Theorem reachable_priorities_distinct (db : Database) (i j : Z) (f g : Feature) :
  reachable db ->
  table db !! i = Some f -> table db !! j = Some g ->
  i <> j ->
  Feature.priority f <> Feature.priority g.
Proof.
  intros Hreach Hf Hg Hne Heq. apply Hne. clear Hne.
  revert i j f g Hf Hg Heq.
  induction Hreach as [|db body Hr IH|db body Hr IH
                       |db feature_id update Hr IH|db feature_id Hr IH];
    intros i j f g Hf Hg Heq.
  - unfold empty_db in Hf. simpl in Hf. by rewrite lookup_empty in Hf.
  - unfold POST_features, bind, lift in Hf, Hg.
    destruct (parse_FeatureCreate_cases body) as [[_ Hp]|[_ Hp]];
      rewrite Hp in Hf, Hg; [eauto|].
    rewrite create_feature_spec in Hf, Hg. simpl in Hf, Hg.
    apply lookup_insert_Some in Hf as [[<- <-]|[_ Hf]];
      apply lookup_insert_Some in Hg as [[<- <-]|[_ Hg]]; try done.
    + pose proof (next_priority_above db (j, g) Hg). simpl in *. lia.
    + pose proof (next_priority_above db (i, f) Hf). simpl in *. lia.
    + eauto.
  - unfold POST_features_bulk, bind, lift in Hf, Hg.
    destruct (parse_FeatureBulkCreate_cases body) as [[_ Hp]|(_ & _ & Hp)];
      rewrite Hp in Hf, Hg; [eauto|].
    apply create_features_bulk_rows in Hf as [Hf|(n & x & _ & -> & ->)];
      apply create_features_bulk_rows in Hg as [Hg|(m & y & _ & -> & ->)].
    + eauto.
    + pose proof (next_priority_above db (i, f) Hf). simpl in *. lia.
    + pose proof (next_priority_above db (j, g) Hg). simpl in *. lia.
    + simpl in Heq. lia.
  - unfold update_feature, bind, get, put, refresh, ret in Hf, Hg. simpl in Hf, Hg.
    destruct (table db !! feature_id) as [g0|] eqn:E; [|eauto]. simpl in Hf, Hg.
    assert (Hsame : forall k r, <[feature_id := set_passes (FeatureUpdate.passes update) g0]>
                                  (table db) !! k = Some r ->
                      exists r0, table db !! k = Some r0
                                 /\ Feature.priority r0 = Feature.priority r).
    { intros k r Hk. apply lookup_insert_Some in Hk as [[<- <-]|[_ Hk]]; eauto. }
    destruct (Hsame i f Hf) as (f0 & Hf0 & Hpf).
    destruct (Hsame j g Hg) as (g1 & Hg1 & Hpg).
    apply (IH i j f0 g1); [done|done|lia].
  - unfold delete_feature, bind, get, put in Hf, Hg. simpl in Hf, Hg.
    destruct (table db !! feature_id) as [g0|] eqn:E; [|eauto]. simpl in Hf, Hg.
    apply lookup_delete_Some in Hf as [_ Hf].
    apply lookup_delete_Some in Hg as [_ Hg]. eauto.
Qed.

(** The theorem at the sample reachable store: its features 2 and 3 have
    priorities 2 and 3. *)
Lemma reachable_priorities_distinct_witness :
  Feature.priority (new_feature 2 (declared (sample_body "api" ["call it"] [])))
  <> Feature.priority (new_feature 3 (declared (sample_body "db" ["migrate"] []))).
Proof.
  apply (reachable_priorities_distinct _ 2 3 _ _ reachable_sample).
  - vm_compute. reflexivity.
  - vm_compute. reflexivity.
  - lia.
Defined.

(* ===================================================================== *)
(** * Further properties of the notifier *)
(* ===================================================================== *)

(** ** The remaining branches *)

Lemma configured_cases (env : Env) :
  configured env \/ WEBHOOK_URL env = None \/ WEBHOOK_URL env = Some "".
Proof.
  unfold configured. destruct (WEBHOOK_URL env) as [[|a url]|]; auto.
  left. by eexists.
Qed.

Lemma send_progress_webhook_unconfigured (env : Env) (passing total : Z) (w : World) :
  WEBHOOK_URL env = None \/ WEBHOOK_URL env = Some "" ->
  send_progress_webhook env passing total w = (Return tt, w).
Proof. unfold send_progress_webhook. by intros [->| ->]. Qed.

(** First run without progress (section 4.4, step 4): the baseline is
    written and nothing is sent or printed. *)
Lemma send_progress_webhook_baseline (env : Env) (passing total : Z) (w : World) :
  configured env ->
  cache_file w = None ->
  passing <= 0 ->
  send_progress_webhook env passing total w
  = (Return tt,
     {| cache_file := Some (cache_text passing (listed_ids env));
        posted := posted w; delivered := delivered w; console := console w |}).
Proof.
  intros (url & Hurl & Hne) Hnone Hle.
  unfold send_progress_webhook. rewrite Hurl.
  destruct url as [|a url]; [done|].
  unfold bind at 1.
  rewrite load_cache_eq by (rewrite Hnone; apply comparable_count_None).
  rewrite Hnone. simpl.
  apply Z.ltb_ge in Hle. rewrite Hle.
  unfold bind, get, try_except, _api_get, lift, ret, write_text, listed_ids,
    currently_passing, cache_text.
  rewrite Hnone. by destruct (api env features_passing_1000).
Qed.

Lemma cache_of_unreadable (c : option file_text) :
  unreadable c -> cache_of c = (0, ∅).
Proof. by intros [->|[->|[->|[count ->]]]]. Qed.

Lemma filter_not_in_empty (previous : gset Z) (fs : list FeatureResponse) :
  previous = ∅ ->
  filter (fun f => FeatureResponse.id f ∉ previous) fs = fs.
Proof.
  intros ->. induction fs as [|f fs IH]; [done|].
  rewrite filter_cons_True by apply not_elem_of_empty. by rewrite IH.
Qed.

(** ** What a call can and cannot do *)

Lemma comparable_count_unreadable (c : option file_text) :
  unreadable c -> comparable_count c.
Proof. intros [->|[->|[->|[count ->]]]] ids H; congruence. Qed.



(** X15. With a cache file in place, a call whose [passing] does not
    exceed the cached count (one it can be compared with) sends nothing
    and writes nothing. The cached
    count is therefore a high-water mark: a drop of [passing] is not
    recorded, and a cache file that cannot be read stays as it is while
    [passing] is 0. *)
Theorem no_progress_changes_nothing (env : Env) (passing total : Z) (w : World) :
  is_Some (cache_file w) ->
  comparable_count (cache_file w) ->
  passing <= (cache_of (cache_file w)).1 ->
  send_progress_webhook env passing total w = (Return tt, w)
  /\ (forall env' passing' total',
        passing' <= (cache_of (cache_file w)).1 ->
        send_progress_webhook env' passing' total'
          (send_progress_webhook env passing total w).2
        = (Return tt, w)).
Proof.
  intros Hsome Hcmp Hle.
  rewrite (send_progress_webhook_no_progress env passing total w Hsome Hcmp Hle).
  split; [done|]. intros env' passing' total' Hle'. simpl.
  by apply send_progress_webhook_no_progress.
Qed.

(** The theorem at the cache [{count: 3, passing_ids: [1, 2, 5]}] and
    [passing = 2], then [passing = 3] again: neither call does anything. *)
Lemma no_progress_changes_nothing_witness :
  send_progress_webhook (sample_env (Some progress_db) true) 2 5
    (sample_world (Some (cache_text 3 [1; 2; 5])))
  = (Return tt, sample_world (Some (cache_text 3 [1; 2; 5])))
  /\ send_progress_webhook (sample_env (Some progress_db) true) 3 5
       (send_progress_webhook (sample_env (Some progress_db) true) 2 5
          (sample_world (Some (cache_text 3 [1; 2; 5])))).2
     = (Return tt, sample_world (Some (cache_text 3 [1; 2; 5]))).
Proof.
  destruct (no_progress_changes_nothing (sample_env (Some progress_db) true) 2 5
              (sample_world (Some (cache_text 3 [1; 2; 5])))) as [H1 H2].
  - by eexists.
  - intros ids H; discriminate H.
  - simpl. lia.
  - split; [exact H1|]. apply H2. simpl. lia.
Defined.

(** X16. On a first run (no cache file) with [passing] at 0, the notifier
    sends and prints nothing and writes the baseline
    [{count: passing, passing_ids: listed ids}]; when the request for the
    passing features fails, the failure is swallowed without a trace and
    the baseline holds no ids. A further call without progress then
    changes nothing. *)
Theorem first_run_writes_baseline (env : Env) (passing total : Z) (w : World) :
  configured env ->
  cache_file w = None ->
  passing <= 0 ->
  exists w',
    send_progress_webhook env passing total w = (Return tt, w')
    /\ cache_file w' = Some (cache_text passing (listed_ids env))
    /\ posted w' = posted w /\ delivered w' = delivered w /\ console w' = console w
    /\ (forall e, api env features_passing_1000 = Raise e ->
          cache_file w' = Some (cache_text passing []))
    /\ (forall env' total',
          send_progress_webhook env' passing total' w' = (Return tt, w')).
Proof.
  intros Hconf Hnone Hle. eexists.
  split; [by apply send_progress_webhook_baseline|]. simpl.
  repeat split; try done.
  - intros e He. unfold listed_ids, currently_passing. by rewrite He.
  - intros env' total'. apply send_progress_webhook_no_progress; simpl;
      [done|apply comparable_count_cache_text|lia].
Qed.

(** The theorem at a store without passing features and at an
    unreachable API. *)
Lemma first_run_writes_baseline_witness :
  exists w' w'',
    send_progress_webhook (sample_env (Some (one_row_db 1)) true) 0 1 (sample_world None)
    = (Return tt, w')
    /\ cache_file w' = Some (cache_text 0 [])
    /\ send_progress_webhook (sample_env None true) 0 1 (sample_world None)
       = (Return tt, w'')
    /\ cache_file w'' = Some (cache_text 0 [])
    /\ console w'' = [].
Proof.
  destruct (first_run_writes_baseline (sample_env (Some (one_row_db 1)) true) 0 1
              (sample_world None)) as (w' & H1 & Hfile & _);
    [by exists "http://localhost:5678/webhook"|reflexivity|lia|].
  destruct (first_run_writes_baseline (sample_env None true) 0 1
              (sample_world None)) as (w'' & H2 & _ & _ & _ & Hconsole & Hfail & _);
    [by exists "http://localhost:5678/webhook"|reflexivity|lia|].
  exists w', w''. split; [exact H1|]. split; [exact Hfile|].
  split; [exact H2|]. split; [apply (Hfail URLError); reflexivity|exact Hconsole].
Defined.

(** X17. A cache file that is absent or cannot be read (not JSON, not an
    object, or with a ["passing_ids"] that is not a list, whatever
    ["count"] it carries) counts as [{0, ∅}]: with [passing] above 0 the
    notification reports [previous_passing = 0], names every feature the
    API lists, and the file is replaced by a readable one. *)
Theorem unreadable_cache_counts_as_empty (env : Env) (passing total : Z) (w : World) :
  configured env ->
  unreadable (cache_file w) ->
  0 < passing ->
  exists w' payload,
    send_progress_webhook env passing total w = (Return tt, w')
    /\ posted w' = posted w ++ [[payload]]
    /\ Payload.previous_passing payload = 0
    /\ Payload.tests_completed_this_session payload = passing
    /\ Payload.completed_tests payload = completed_entry <$> currently_passing env
    /\ cache_file w' = Some (cache_text passing (listed_ids env))
    /\ cache_of (cache_file w') = (passing, list_to_set (listed_ids env)).
Proof.
  intros Hconf Hbad Hpos.
  pose proof (cache_of_unreadable _ Hbad) as Hcache.
  destruct (send_progress_webhook_progress env passing total w Hconf)
    as (w' & Hcall & Hfile & Hposted & _ & _).
  { by apply comparable_count_unreadable. }
  { rewrite Hcache. simpl. lia. }
  exists w', (notification env passing total (cache_file w)).
  split; [done|]. split; [done|].
  unfold notification.
  cbn [Payload.previous_passing Payload.tests_completed_this_session
         Payload.completed_tests].
  split; [by rewrite Hcache|]. split; [rewrite Hcache; simpl; lia|].
  split; [by rewrite filter_not_in_empty by (by rewrite Hcache)|].
  split; [done|]. by rewrite Hfile.
Qed.

(** The theorem at a cache file whose ["count"] is 7 and whose
    ["passing_ids"] is not a list: the three passing features of the
    five-feature store are all named. *)
Lemma unreadable_cache_counts_as_empty_witness :
  exists w' payload,
    send_progress_webhook (sample_env (Some progress_db) true) 3 5
      (sample_world (Some (JsonText (JObject (Some (CountInt 7)) (Some NotIterable)))))
    = (Return tt, w')
    /\ posted w' = [[payload]]
    /\ Payload.previous_passing payload = 0
    /\ length (Payload.completed_tests payload) = 3%nat
    /\ cache_file w' = Some (cache_text 3 [1; 2; 5]).
Proof.
  destruct (unreadable_cache_counts_as_empty (sample_env (Some progress_db) true) 3 5
              (sample_world (Some (JsonText (JObject (Some (CountInt 7))
                                               (Some NotIterable))))))
    as (w' & payload & Hcall & Hposted & Hprev & _ & Hcompleted & Hfile & _).
  - by exists "http://localhost:5678/webhook".
  - right. right. right. by exists (Some (CountInt 7)).
  - lia.
  - exists w', payload. split; [exact Hcall|]. split; [exact Hposted|].
    split; [exact Hprev|]. split; [by rewrite Hcompleted|exact Hfile].
Defined.

(** X18. Two calls with growing [passing]: whatever happens to the
    delivery of the first notification, the second names exactly the
    features listed at the second call whose ids were not listed at the
    first, and reports the first [passing] as [previous_passing]. A feature
    listed at both calls is not named again; if the listing failed at the
    first call, every feature listed at the second is named. *)
Theorem second_notification_names_new_features (env1 env2 : Env)
    (passing1 total1 passing2 total2 : Z) (w : World) :
  configured env1 -> configured env2 ->
  comparable_count (cache_file w) ->
  (cache_of (cache_file w)).1 < passing1 ->
  passing1 < passing2 ->
  exists w1 w2 payload1 payload2,
    send_progress_webhook env1 passing1 total1 w = (Return tt, w1)
    /\ send_progress_webhook env2 passing2 total2 w1 = (Return tt, w2)
    /\ posted w2 = posted w ++ [[payload1]; [payload2]]
    /\ Payload.previous_passing payload2 = passing1
    /\ Payload.tests_completed_this_session payload2 = passing2 - passing1
    /\ Payload.completed_tests payload2
       = completed_entry
           <$> filter (fun f => FeatureResponse.id f ∉ listed_ids env1)
                      (currently_passing env2)
    /\ cache_file w2 = Some (cache_text passing2 (listed_ids env2)).
Proof.
  intros Hconf1 Hconf2 Hcmp Hlt1 Hlt2.
  destruct (send_progress_webhook_progress env1 passing1 total1 w Hconf1 Hcmp Hlt1)
    as (w1 & Hcall1 & Hfile1 & Hposted1 & _ & _).
  destruct (send_progress_webhook_progress env2 passing2 total2 w1 Hconf2)
    as (w2 & Hcall2 & Hfile2 & Hposted2 & _ & _).
  { rewrite Hfile1. apply comparable_count_cache_text. }
  { rewrite Hfile1. simpl. lia. }
  exists w1, w2, (notification env1 passing1 total1 (cache_file w)),
    (notification env2 passing2 total2 (cache_file w1)).
  split; [done|]. split; [done|].
  split; [by rewrite Hposted2, Hposted1, <- app_assoc|].
  unfold notification.
  cbn [Payload.previous_passing Payload.tests_completed_this_session
         Payload.completed_tests].
  rewrite Hfile1.
  split; [done|]. split; [done|]. split; [|done].
  f_equal. apply list_filter_iff. intros f. unfold listed_ids.
  change (cache_of (Some (cache_text passing1
                            (FeatureResponse.id <$> currently_passing env1)))).2
    with (list_to_set (FeatureResponse.id <$> currently_passing env1) : gset Z).
  by rewrite elem_of_list_to_set.
Qed.

(** The theorem from the cache [{count: 0, passing_ids: []}]: a first call
    with feature 6 of the six-feature store passing, a second with
    features 1, 2 and 5 of the five-feature store: the second names three
    features and reports 1 as the previous count. *)
Lemma second_notification_names_new_features_witness :
  exists w1 w2 payload1 payload2,
    send_progress_webhook (sample_env (Some six_db) false) 1 6
      (sample_world (Some (cache_text 0 []))) = (Return tt, w1)
    /\ send_progress_webhook (sample_env (Some progress_db) true) 3 5 w1 = (Return tt, w2)
    /\ posted w2 = [[payload1]; [payload2]]
    /\ Payload.previous_passing payload2 = 1
    /\ length (Payload.completed_tests payload2) = 3%nat.
Proof.
  destruct (second_notification_names_new_features
              (sample_env (Some six_db) false) (sample_env (Some progress_db) true)
              1 6 3 5 (sample_world (Some (cache_text 0 []))))
    as (w1 & w2 & p1 & p2 & H1 & H2 & Hposted & Hprev & _ & Hcompleted & _).
  - by exists "http://localhost:5678/webhook".
  - by exists "http://localhost:5678/webhook".
  - intros ids H; discriminate H.
  - simpl. lia.
  - lia.
  - exists w1, w2, p1, p2. split; [exact H1|]. split; [exact H2|].
    split; [exact Hposted|]. split; [exact Hprev|].
    rewrite Hcompleted. vm_compute. reflexivity.
Defined.

(** ** Calling twice *)

(** After a call, a call with the same [passing] and the same webhook
    URL, on any world with the same cache file, changes nothing. *)
Lemma send_progress_webhook_settles (env : Env) (passing total : Z) (w : World) :
  comparable_count (cache_file w) ->
  exists w',
    send_progress_webhook env passing total w = (Return tt, w')
    /\ forall env' total' w'',
         WEBHOOK_URL env' = WEBHOOK_URL env ->
         cache_file w'' = cache_file w' ->
         send_progress_webhook env' passing total' w'' = (Return tt, w'').
Proof.
  intros Hcmp.
  destruct (configured_cases env) as [Hconf|Hnot].
  - destruct (decide ((cache_of (cache_file w)).1 < passing)) as [Hlt|Hge].
    + destruct (send_progress_webhook_progress env passing total w Hconf Hcmp Hlt)
        as (w' & Hcall & Hfile & _).
      exists w'. split; [done|]. intros env' total' w'' _ Heq.
      apply send_progress_webhook_no_progress; rewrite Heq, Hfile; simpl;
        [done|apply comparable_count_cache_text|lia].
    + destruct (cache_file w) as [text|] eqn:Hfile.
      * exists w. split.
        { apply send_progress_webhook_no_progress; rewrite Hfile; [done|done|lia]. }
        intros env' total' w'' _ Heq.
        apply send_progress_webhook_no_progress; rewrite Heq, Hfile; [done|done|lia].
      * eexists. split.
        { apply send_progress_webhook_baseline; [done|done|]. simpl in Hge. lia. }
        intros env' total' w'' _ Heq. simpl in Heq.
        apply send_progress_webhook_no_progress; rewrite Heq; simpl;
          [done|apply comparable_count_cache_text|lia].
  - exists w. split; [by apply send_progress_webhook_unconfigured|].
    intros env' total' w'' Hurl _.
    apply send_progress_webhook_unconfigured. by rewrite Hurl.
Qed.

(** X19. The notifier is idempotent: from a cache file whose count it
    can compare [passing] with, called again with the same [passing] and
    the same webhook URL, whatever the API, the sink and [total] have
    become in between, it sends nothing, writes nothing and prints
    nothing. *)
Theorem notifier_is_idempotent (env env' : Env) (passing total total' : Z) (w : World) :
  WEBHOOK_URL env' = WEBHOOK_URL env ->
  comparable_count (cache_file w) ->
  exists w',
    send_progress_webhook env passing total w = (Return tt, w')
    /\ send_progress_webhook env' passing total' w' = (Return tt, w').
Proof.
  intros Hurl Hcmp. destruct (send_progress_webhook_settles env passing total w Hcmp)
    as (w' & Hcall & Hagain).
  exists w'. split; [done|]. by apply Hagain.
Qed.

(** The theorem at a first call that notifies, and a second with the API
    unreachable and the sink down. *)
Lemma notifier_is_idempotent_witness :
  exists w',
    send_progress_webhook (sample_env (Some progress_db) true) 3 5
      (sample_world (Some (cache_text 2 [1; 2]))) = (Return tt, w')
    /\ send_progress_webhook (sample_env None false) 3 5 w' = (Return tt, w').
Proof.
  apply (notifier_is_idempotent (sample_env (Some progress_db) true)
           (sample_env None false) 3 5 5 (sample_world (Some (cache_text 2 [1; 2])))).
  - reflexivity.
  - intros ids H; discriminate H.
Defined.

(** ** Counting and summarising *)

Lemma count_passing_tests_served (env : Env) (db : Database) (w : World) :
  api env features_stats = serve (Some db) features_stats ->
  count_passing_tests env w = (Return (passing_count db, total_count db), w).
Proof.
  intros Hapi. unfold count_passing_tests, try_except, bind, _api_get, lift.
  rewrite Hapi. unfold serve. by rewrite get_stats_eq.
Qed.

(** X20. [count_passing_tests] never raises and touches neither the cache
    file nor the sink. A stats answer gives its two counts; a failed
    request, or an answer without the two keys, gives [(0, 0)] and one
    line on the console. Against an API that serves a store it gives the
    number of passing features and the number of features. *)
Theorem count_passing_tests_falls_back (env : Env) (w : World) :
  exists counts w',
    count_passing_tests env w = (Return counts, w')
    /\ cache_file w' = cache_file w
    /\ posted w' = posted w
    /\ delivered w' = delivered w
    /\ match api env features_stats with
       | Return (StatsJson s) =>
           counts = (StatsResponse.passing s, StatsResponse.total s) /\ w' = w
       | Return (ListJson _) =>
           counts = (0, 0)
           /\ console w' = console w ++ [api_unavailable_in_count_passing_tests KeyError]
       | Raise e =>
           counts = (0, 0)
           /\ console w' = console w ++ [api_unavailable_in_count_passing_tests e]
       end
    /\ (forall db, api env features_stats = serve (Some db) features_stats ->
          counts = (passing_count db, total_count db)).
Proof.
  unfold count_passing_tests, try_except, bind, _api_get, lift, raise, print, ret.
  destruct (api env features_stats) as [[s|d]|e] eqn:Hapi; do 2 eexists;
    (split; [reflexivity|]); simpl; repeat split; try done.
  - intros db Hdb. unfold serve in Hdb. rewrite get_stats_eq in Hdb.
    by injection Hdb as ->.
  - intros db Hdb. unfold serve in Hdb. by rewrite get_stats_eq in Hdb.
  - intros db Hdb. unfold serve in Hdb. by rewrite get_stats_eq in Hdb.
Qed.

(** X21. When the API cannot be reached, or reports no features, the
    summary prints that there are no features and stops: no request goes
    to the sink and the cache file is not touched, even with a webhook
    configured and progress to report. *)
Theorem summary_without_features_sends_nothing (env : Env) (w : World) :
  (forall s, api env features_stats = Return (StatsJson s) ->
     StatsResponse.total s <= 0) ->
  exists w',
    print_progress_summary env w = (Return tt, w')
    /\ cache_file w' = cache_file w
    /\ posted w' = posted w
    /\ delivered w' = delivered w
    /\ exists before, console w' = console w ++ before ++ [no_features_yet].
Proof.
  intros Hnone.
  unfold print_progress_summary, count_passing_tests, try_except, bind, _api_get,
    lift, raise, print, ret.
  destruct (api env features_stats) as [[s|d]|e] eqn:Hapi; simpl.
  - specialize (Hnone s eq_refl). apply Z.ltb_ge in Hnone. rewrite Hnone.
    eexists. split; [reflexivity|]. simpl. repeat split. by exists [].
  - eexists. split; [reflexivity|]. simpl. repeat split.
    eexists [_]. by rewrite <- app_assoc.
  - eexists. split; [reflexivity|]. simpl. repeat split.
    eexists [_]. by rewrite <- app_assoc.
Qed.

(** The theorem with the API unreachable, a webhook configured and a
    cache that is behind. *)
Lemma summary_without_features_sends_nothing_witness :
  exists w',
    print_progress_summary (sample_env None true)
      (sample_world (Some (cache_text 2 [1; 2]))) = (Return tt, w')
    /\ cache_file w' = Some (cache_text 2 [1; 2])
    /\ posted w' = [].
Proof.
  destruct (summary_without_features_sends_nothing (sample_env None true)
              (sample_world (Some (cache_text 2 [1; 2]))))
    as (w' & Hcall & Hfile & Hposted & _).
  - intros s Hs. discriminate Hs.
  - exists w'. split; [exact Hcall|]. split; [exact Hfile|exact Hposted].
Defined.

(** X22. Two summaries in a row over an API that serves the same store
    (or is unreachable both times), from a cache file whose count can be
    compared with the number of passing features: the second makes no
    request and leaves the cache file as the first left it. *)
Theorem summary_twice_sends_once (env : Env) (server : option Database) (w : World) :
  api env = serve server ->
  comparable_count (cache_file w) ->
  exists w1 w2,
    print_progress_summary env w = (Return tt, w1)
    /\ print_progress_summary env w1 = (Return tt, w2)
    /\ posted w2 = posted w1
    /\ delivered w2 = delivered w1
    /\ cache_file w2 = cache_file w1.
Proof.
  intros Hapi Hcmp.
  assert (Hsummary : forall w0,
            print_progress_summary env w0
            = match server with
              | Some db =>
                  if 0 <? total_count db then
                    send_progress_webhook env (passing_count db) (total_count db)
                      {| cache_file := cache_file w0; posted := posted w0;
                         delivered := delivered w0;
                         console := console w0
                                    ++ [progress_line (passing_count db) (total_count db)] |}
                  else
                    (Return tt,
                     {| cache_file := cache_file w0; posted := posted w0;
                        delivered := delivered w0;
                        console := console w0 ++ [no_features_yet] |})
              | None =>
                  (Return tt,
                   {| cache_file := cache_file w0; posted := posted w0;
                      delivered := delivered w0;
                      console := (console w0
                                  ++ [api_unavailable_in_count_passing_tests URLError])
                                 ++ [no_features_yet] |})
              end).
  { intros w0. unfold print_progress_summary. unfold bind at 1.
    destruct server as [db|].
    - rewrite (count_passing_tests_served env db) by (by rewrite Hapi). simpl.
      by destruct (0 <? total_count db).
    - unfold count_passing_tests, try_except, bind, _api_get, lift. rewrite Hapi.
      reflexivity. }
  rewrite Hsummary. destruct server as [db|].
  - destruct (0 <? total_count db) eqn:Hpos.
    + match goal with
      | |- context [send_progress_webhook env ?p ?t ?w0] =>
          destruct (send_progress_webhook_settles env p t w0 Hcmp)
            as (w1 & Hcall & Hagain)
      end.
      exists w1. eexists. split; [exact Hcall|].
      rewrite Hsummary.
      rewrite Hagain by done. done.
    + do 2 eexists. split; [reflexivity|]. rewrite Hsummary. done.
  - do 2 eexists. split; [reflexivity|]. rewrite Hsummary. done.
Qed.

(** The theorem over the five-feature store, from a cache that is behind:
    the first summary posts once, the second not at all. *)
Lemma summary_twice_sends_once_witness :
  exists w1 w2,
    print_progress_summary (sample_env (Some progress_db) true)
      (sample_world (Some (cache_text 2 [1; 2]))) = (Return tt, w1)
    /\ print_progress_summary (sample_env (Some progress_db) true) w1 = (Return tt, w2)
    /\ length (posted w1) = 1%nat
    /\ posted w2 = posted w1
    /\ cache_file w2 = Some (cache_text 3 [1; 2; 5]).
Proof.
  destruct (summary_twice_sends_once (sample_env (Some progress_db) true)
              (Some progress_db) (sample_world (Some (cache_text 2 [1; 2]))) eq_refl)
    as (w1 & w2 & H1 & H2 & Hposted & _ & Hfile).
  { intros ids H; discriminate H. }
  assert (Hw1 : posted w1 = posted (print_progress_summary
                                      (sample_env (Some progress_db) true)
                                      (sample_world (Some (cache_text 2 [1; 2])))).2
                /\ cache_file w1
                   = cache_file (print_progress_summary
                                   (sample_env (Some progress_db) true)
                                   (sample_world (Some (cache_text 2 [1; 2])))).2).
  { by rewrite H1. }
  destruct Hw1 as [Hp1 Hc1].
  exists w1, w2. split; [exact H1|]. split; [exact H2|].
  split; [rewrite Hp1; vm_compute; reflexivity|]. split; [exact Hposted|].
  rewrite Hfile, Hc1. vm_compute. reflexivity.
Defined.

(** ** What the notifier is told about a store *)

(** X23. Against an API that serves a store, the ids the notifier lists
    (and writes to the cache) are ids of passing features of that store,
    each at most once, and there are [min(1000, passing)] of them: all the
    passing features when there are at most 1000, and only 1000 of them
    beyond that, the request being made with [limit=1000] and no second
    page. *)
Theorem listed_ids_are_passing_ids (env : Env) (db : Database) :
  api env features_passing_1000 = serve (Some db) features_passing_1000 ->
  list_len (listed_ids env) = Z.min 1000 (passing_count db)
  /\ NoDup (listed_ids env)
  /\ (forall i, i ∈ listed_ids env ->
        exists f, table db !! i = Some f /\ Feature.passes f = true)
  /\ (passing_count db <= 1000 ->
      forall i f, table db !! i = Some f -> Feature.passes f = true ->
        i ∈ listed_ids env).
Proof.
  intros Hapi.
  set (rows := order_by_priority_id (filter_passes true (query db))).
  assert (Hlisted : listed_ids env = (take 1000 rows).*1).
  { unfold listed_ids, currently_passing. rewrite Hapi. simpl.
    unfold offset_limit. rewrite drop_0, <- list_fmap_compose. done. }
  assert (Hperm : rows ≡ₚ filter_passes true (query db))
    by apply order_by_priority_id_perm.
  assert (Hlen : Z.of_nat (length rows) = passing_count db).
  { rewrite Hperm. apply count_filter_passes. }
  assert (Hnodup : NoDup rows.*1).
  { rewrite Hperm. apply NoDup_passing_ids. }
  rewrite Hlisted. split; [|split; [|split]].
  - unfold list_len. rewrite length_fmap, length_take. lia.
  - apply (sublist_NoDup _ rows.*1); [done|].
    apply fmap_sublist, sublist_take.
  - intros i Hi. apply list_elem_of_fmap in Hi as ([j f] & -> & Hr).
    apply elem_of_take in Hr as (n & Hn & _).
    apply list_elem_of_lookup_2 in Hn. rewrite Hperm in Hn.
    apply elem_of_filter_passes in Hn. by exists f.
  - intros Hfew i f Hf Hp. rewrite take_ge by lia.
    apply (list_elem_of_fmap_2' _ _ (i, f)); [|done].
    rewrite Hperm. by apply elem_of_filter_passes.
Qed.

(** The theorem at the five-feature store: ids 1, 2 and 5. *)
Lemma listed_ids_are_passing_ids_witness :
  list_len (listed_ids (sample_env (Some progress_db) true)) = 3
  /\ NoDup (listed_ids (sample_env (Some progress_db) true)).
Proof.
  destruct (listed_ids_are_passing_ids (sample_env (Some progress_db) true)
              progress_db eq_refl) as (Hlen & Hnodup & _).
  split; [|exact Hnodup]. rewrite Hlen. vm_compute. reflexivity.
Defined.
